(** * Retro AI Snake: the adaptive game master and the tick engine

    A shallow embedding of [retro_ai_snake.py]: the [AIGameMaster] class
    (skill classification, difficulty adaptation, next-move prediction,
    power-up policy, statistics update) and the game-logic methods of
    [RetroSnakeGame] ([reset_game], [spawn_food], [spawn_power_up],
    [update_game], [handle_power_up], [handle_input], [run]) with the
    geometry of the drawn cells.  Drawing itself and the profile file are
    left out.

    Python values are represented as follows.
    - [int] is [Z].
    - [float] is an IEEE 754 binary64 value, [spec_float] with the
      operations of [SpecFloat] at precision 53.  An [int] operand of float
      arithmetic is converted first, which raises [OverflowError] out of
      range; an [int] and a [float] are compared exactly.
    - The [player_data] dict and the two objects are records; direction,
      skill, death-cause and power-up-type strings are enumerations.
    - [list] and [deque] are lists, the head of the snake first.
    - The dict built by [predict_next_move] is an association list kept in
      insertion order, the order in which Python iterates a dict.
    - [random] is a tape of raw draws with a cursor; every library call
      consumes one draw.
    - A [while True] loop takes fuel and answers [OutOfFuel] when it has not
      returned within it; exceptions are the [Raises] outcome. *)

From Stdlib Require Import ZArith Lia Bool.
From Stdlib Require Import Floats.SpecFloat.
From stdpp Require Import base option list.

#[local] Open Scope Z_scope.

(** ** Outcomes *)

Inductive exn := IndexError | ValueError | ZeroDivisionError | OverflowError.

(** What running a piece of the program comes to. *)
Inductive outcome (A : Type) :=
  | Returns (a : A)
  | Raises (e : exn)
  | OutOfFuel.
Arguments Returns {A} a.
Arguments Raises {A} e.
Arguments OutOfFuel {A}.

#[global] Instance outcome_ret : MRet outcome := fun A a => Returns a.
#[global] Instance outcome_bind : MBind outcome := fun A B k m =>
  match m with
  | Returns a => k a
  | Raises e => Raises e
  | OutOfFuel => OutOfFuel
  end.

(** ** Python floats *)

Module PyFloat.

Definition prec : Z := 53.
Definition emax : Z := 1024.

Abbreviation float := spec_float.

(** The binary64 nearest to [z], ties to even; an infinity from
    [2^1024 - 2^970] on.  This is the value of an integer literal and of a
    conversion that succeeds. *)
Definition nearest (z : Z) : float := binary_normalize prec emax z 0 false.

(** The integers that convert to a float. *)
Definition floatable (z : Z) : bool :=
  match nearest z with
  | S754_infinity _ => false
  | _ => true
  end.

(** The conversion of an [int] operand of float arithmetic:
    [OverflowError] where the rounded value leaves the binary64 range. *)
Definition of_int (z : Z) : outcome float :=
  if floatable z then Returns (nearest z) else Raises OverflowError.

Definition mul : float -> float -> float := SFmul prec emax.
Definition add : float -> float -> float := SFadd prec emax.
Definition div : float -> float -> float := SFdiv prec emax.

(** The decimal literal [p/q] for small [p], [q]: the division is correctly
    rounded, so this is the binary64 nearest to the decimal. *)
Definition literal (p q : Z) : float := div (nearest p) (nearest q).

Definition ltb : float -> float -> bool := SFltb.
Definition leb : float -> float -> bool := SFleb.

(** The order of an [int] and a [float].  Python compares the two exactly,
    without converting the integer: the float [m * 2^e] is scaled to an
    integer, or the integer is scaled by [2^-e].  Against a NaN there is no
    order and every comparison is false. *)
Definition int_compare (z : Z) (f : float) : option comparison :=
  match f with
  | S754_nan => None
  | S754_infinity negative => Some (if negative then Gt else Lt)
  | S754_zero _ => Some (z ?= 0)
  | S754_finite negative m e =>
      let v := if negative then Z.neg m else Z.pos m in
      Some (if 0 <=? e then z ?= v * 2 ^ e else z * 2 ^ (- e) ?= v)
  end.

(** [z < f] and [z > f] for an [int] [z] and a [float] [f]. *)
Definition int_lt (z : Z) (f : float) : bool :=
  match int_compare z f with
  | Some Lt => true
  | _ => false
  end.
Definition int_gt (z : Z) (f : float) : bool :=
  match int_compare z f with
  | Some Gt => true
  | _ => false
  end.

(** [f > k] for a float [f] and an integer literal [k] of the program
    ([30] to [200]), which its float represents exactly. *)
Definition gt_int (f : float) (k : Z) : bool := ltb (nearest k) f.

Definition zero : float := S754_zero false.

End PyFloat.

Import PyFloat.

(** ** The player profile *)

Inductive Direction := Up | Down | Left | Right.
Inductive Skill := beginner | intermediate | advanced | expert.
Inductive DeathCause := wall | self.

#[global] Instance Direction_eq_dec : EqDecision Direction.
Proof. solve_decision. Defined.
#[global] Instance Skill_eq_dec : EqDecision Skill.
Proof. solve_decision. Defined.
#[global] Instance DeathCause_eq_dec : EqDecision DeathCause.
Proof. solve_decision. Defined.

(** [death_causes]: the dict with keys ['wall'] and ['self']. *)
Record DeathCauses := { dc_wall : Z; dc_self : Z }.

(** [preferred_directions]: the dict with the four direction keys. *)
Record DirectionCounts := { n_up : Z; n_down : Z; n_left : Z; n_right : Z }.

Record PlayerData := {
  games_played : Z;
  avg_score : float;
  avg_game_time : float;
  movement_patterns : list (list Direction);
  death_causes : DeathCauses;
  preferred_directions : DirectionCounts;
  reaction_times : list float;
  skill_level : Skill
}.

Record AIGameMaster := {
  player_data : PlayerData;
  base_speed : Z;
  current_speed : Z;
  power_up_frequency : float;
  obstacle_chance : float
}.

(** The dict literal of [AIGameMaster.__init__]. *)
Definition default_player_data : PlayerData := {|
  games_played := 0;
  avg_score := zero;
  avg_game_time := zero;
  movement_patterns := [];
  death_causes := {| dc_wall := 0; dc_self := 0 |};
  preferred_directions := {| n_up := 0; n_down := 0; n_left := 0; n_right := 0 |};
  reaction_times := [];
  skill_level := beginner
|}.

(** [AIGameMaster.__init__], given the profile that [load_player_data]
    leaves in [player_data]. *)
Definition new_AIGameMaster (loaded : PlayerData) : AIGameMaster := {|
  player_data := loaded;
  base_speed := 10;
  current_speed := 10;
  power_up_frequency := literal 3 10;
  obstacle_chance := zero
|}.

Definition set_skill_level (s : Skill) (pd : PlayerData) : PlayerData := {|
  games_played := games_played pd;
  avg_score := avg_score pd;
  avg_game_time := avg_game_time pd;
  movement_patterns := movement_patterns pd;
  death_causes := death_causes pd;
  preferred_directions := preferred_directions pd;
  reaction_times := reaction_times pd;
  skill_level := s
|}.

(** ** Skill classification *)

Definition analyze_skill_level (pd : PlayerData) : Skill :=
  if games_played pd <? 3 then beginner
  else
    let avg_score := avg_score pd in
    let avg_time := avg_game_time pd in
    if gt_int avg_score 200 && gt_int avg_time 120 then expert
    else if gt_int avg_score 100 && gt_int avg_time 60 then advanced
    else if gt_int avg_score 50 && gt_int avg_time 30 then intermediate
    else beginner.

(** The order [Beginner < Intermediate < Advanced < Expert]. *)
Definition tier_rank (s : Skill) : Z :=
  match s with
  | beginner => 0
  | intermediate => 1
  | advanced => 2
  | expert => 3
  end.

(** The classifier as the specification words it: a table of clauses tried
    in order, the first whose guard holds giving the tier. *)
Definition skill_table (pd : PlayerData) : list (bool * Skill) :=
  [ (games_played pd <? 3, beginner);
    (gt_int (avg_score pd) 200 && gt_int (avg_game_time pd) 120, expert);
    (gt_int (avg_score pd) 100 && gt_int (avg_game_time pd) 60, advanced);
    (gt_int (avg_score pd) 50 && gt_int (avg_game_time pd) 30, intermediate);
    (true, beginner) ].

Fixpoint first_match {A} (default : A) (clauses : list (bool * A)) : A :=
  match clauses with
  | [] => default
  | (guard, v) :: rest => if guard then v else first_match default rest
  end.

(** ** Difficulty adaptation *)

Definition base_speeds (s : Skill) : Z :=
  match s with
  | beginner => 8
  | intermediate => 12
  | advanced => 16
  | expert => 20
  end.

Definition adapt_difficulty (am : AIGameMaster) (current_score : Z)
    (game_time : float) : AIGameMaster :=
  let skill := analyze_skill_level (player_data am) in
  let pd := set_skill_level skill (player_data am) in
  let base := base_speeds skill in
  let speed :=
    if int_gt current_score (mul (avg_score pd) (literal 12 10)) then
      Z.min (base + 3) 25
    else if int_lt current_score (mul (avg_score pd) (literal 8 10)) then
      Z.max (base - 2) 6
    else base in
  let frequency :=
    match skill with
    | beginner => literal 4 10
    | expert => literal 2 10
    | _ => literal 3 10
    end in
  {| player_data := pd;
     base_speed := base;
     current_speed := speed;
     power_up_frequency := frequency;
     obstacle_chance := obstacle_chance am |}.

(** ** Next-move prediction *)

(** [direction_weights]: keys in insertion order, one entry per key. *)
Definition Weights := list (Direction * Z).

(** [d.get(k, default)] *)
Fixpoint dict_get (w : Weights) (k : Direction) (default : Z) : Z :=
  match w with
  | [] => default
  | (k', v) :: rest => if decide (k' = k) then v else dict_get rest k default
  end.

(** [d[k] = v]: an existing key keeps its place, a new key goes last. *)
Fixpoint dict_set (w : Weights) (k : Direction) (v : Z) : Weights :=
  match w with
  | [] => [(k, v)]
  | (k', v') :: rest =>
      if decide (k' = k) then (k, v) :: rest else (k', v') :: dict_set rest k v
  end.

Definition dict_keys (w : Weights) : list Direction := w.*1.

(** One pass of the inner loop body:
    [direction_weights[direction] = direction_weights.get(direction, 0) + 1]. *)
Definition count_direction (w : Weights) (direction : Direction) : Weights :=
  dict_set w direction (dict_get w direction 0 + 1).

(** [max(first, *rest, key=key)]: the running maximum is replaced only by a
    strictly larger key, so the earliest maximal item is returned. *)
Definition py_max {A} (key : A -> Z) (first : A) (rest : list A) : A :=
  fold_left (fun best item => if key best <? key item then item else best)
            rest first.

(** [l[-n:]] *)
Definition last_n {A} (n : nat) (l : list A) : list A :=
  drop (length l - n)%nat l.

Definition predict_next_move (am : AIGameMaster) (snake_head : Z * Z)
    (last_direction : Direction) : option Direction :=
  match movement_patterns (player_data am) with
  | [] => None
  | _ :: _ =>
      let recent_patterns := last_n 10 (movement_patterns (player_data am)) in
      let direction_weights :=
        fold_left (fun w pattern => fold_left count_direction pattern w)
                  recent_patterns [] in
      match dict_keys direction_weights with
      | [] => None
      | k :: ks => Some (py_max (fun d => dict_get direction_weights d 0) k ks)
      end
  end.

(** The directions of the ten most recent games, pooled in order. *)
Definition pooled (pd : PlayerData) : list Direction :=
  concat (last_n 10 (movement_patterns pd)).

Definition occurrences (d : Direction) (l : list Direction) : Z :=
  Z.of_nat (length (filter (eq d) l)).

(** ** Power-up policy and statistics *)

(** The random source: a tape of raw draws and the position of the next. *)
Record Random := { tape : nat -> Z; cursor : nat }.

Definition next_draw (g : Random) : Z * Random :=
  (tape g (cursor g), {| tape := tape g; cursor := S (cursor g) |}).

(** [random.randint(a, b)]: an integer of [[a, b]]. *)
Definition randint (a b : Z) (g : Random) : Z * Random :=
  let '(r, g) := next_draw g in (a + r mod (b - a + 1), g).

(** [random.random()]: a multiple of [2^-53] in [[0, 1)]. *)
Definition random (g : Random) : float * Random :=
  let '(r, g) := next_draw g in
  (binary_normalize prec emax (r mod 2 ^ 53) (-53) false, g).

(** [random.choice(first :: rest)] *)
Definition choice {A} (first : A) (rest : list A) (g : Random) : A * Random :=
  let '(r, g) := next_draw g in
  (nth (Z.to_nat (r mod Z.of_nat (S (length rest)))) (first :: rest) first, g).

Definition should_spawn_power_up (am : AIGameMaster) (current_score : Z)
    (snake_length : Z) (g : Random) : bool * Random :=
  if int_lt current_score (mul (avg_score (player_data am)) (literal 7 10)) then
    let '(u, g) := random g in
    (ltb u (mul (power_up_frequency am) (literal 15 10)), g)
  else
    let '(u, g) := random g in
    (ltb u (power_up_frequency am), g).

(** [x / n] for a float [x] and an int [n]: the divisor is converted, then
    tested for zero. *)
Definition div_int (x : float) (n : Z) : outcome float :=
  divisor ← of_int n;
  if n =? 0 then Raises ZeroDivisionError
  else Returns (div x divisor).

Definition bump_death (c : DeathCause) (dc : DeathCauses) : DeathCauses :=
  match c with
  | wall => {| dc_wall := dc_wall dc + 1; dc_self := dc_self dc |}
  | self => {| dc_wall := dc_wall dc; dc_self := dc_self dc + 1 |}
  end.

Definition bump_direction (pc : DirectionCounts) (d : Direction)
    : DirectionCounts :=
  match d with
  | Up => {| n_up := n_up pc + 1; n_down := n_down pc;
             n_left := n_left pc; n_right := n_right pc |}
  | Down => {| n_up := n_up pc; n_down := n_down pc + 1;
               n_left := n_left pc; n_right := n_right pc |}
  | Left => {| n_up := n_up pc; n_down := n_down pc;
               n_left := n_left pc + 1; n_right := n_right pc |}
  | Right => {| n_up := n_up pc; n_down := n_down pc;
                n_left := n_left pc; n_right := n_right pc + 1 |}
  end.

(** [update_player_stats]; [save_player_data] changes nothing in memory. *)
Definition update_player_stats (am : AIGameMaster) (score : Z)
    (game_time : float) (death_cause : DeathCause)
    (movements : list Direction) : outcome AIGameMaster :=
  let pd := player_data am in
  let games := games_played pd + 1 in
  earlier ← of_int (games - 1);
  score' ← of_int score;
  avg_score' ← div_int (add (mul (avg_score pd) earlier) score') games;
  earlier ← of_int (games - 1);
  avg_game_time' ←
    div_int (add (mul (avg_game_time pd) earlier) game_time) games;
  let patterns := movement_patterns pd ++ [last_n 20 movements] in
  let patterns :=
    if (50 <? length patterns)%nat then drop 1 patterns else patterns in
  Returns {|
    player_data := {|
      games_played := games;
      avg_score := avg_score';
      avg_game_time := avg_game_time';
      movement_patterns := patterns;
      death_causes := bump_death death_cause (death_causes pd);
      preferred_directions :=
        fold_left bump_direction movements (preferred_directions pd);
      reaction_times := reaction_times pd;
      skill_level := skill_level pd |};
    base_speed := base_speed am;
    current_speed := current_speed am;
    power_up_frequency := power_up_frequency am;
    obstacle_chance := obstacle_chance am |}.

(** ** The game *)

Definition Cell := (Z * Z)%type.

Inductive PowerUpType := speed_boost | score_multiplier | invincible.

#[global] Instance PowerUpType_eq_dec : EqDecision PowerUpType.
Proof. solve_decision. Defined.

Record PowerUp := { pos : Cell; type : PowerUpType; timer : Z }.

#[global] Instance PowerUp_eq_dec : EqDecision PowerUp.
Proof. solve_decision. Defined.

Record Game := {
  ai_master : AIGameMaster;
  snake : list Cell;
  direction : Direction;
  last_direction : Direction;
  food : Cell;
  power_ups : list PowerUp;
  score : Z;
  game_over : bool;
  paused : bool;
  movement_history : list Direction;
  ai_prediction : option Direction;
  show_ai_hints : bool
}.

Definition WINDOW_WIDTH : Z := 800.
Definition WINDOW_HEIGHT : Z := 600.
Definition GRID_SIZE : Z := 20.
Definition GRID_WIDTH : Z := WINDOW_WIDTH / GRID_SIZE.
Definition GRID_HEIGHT : Z := (WINDOW_HEIGHT - 100) / GRID_SIZE.

(** [spawn_food]: draw cells until one is off the snake. *)
Fixpoint spawn_food (fuel : nat) (snake : list Cell) (g : Random)
    : outcome (Cell * Random) :=
  match fuel with
  | O => OutOfFuel
  | S fuel =>
      let '(x, g) := randint 0 (GRID_WIDTH - 1) g in
      let '(y, g) := randint 0 (GRID_HEIGHT - 1) g in
      if bool_decide ((x, y) ∉ snake) then Returns ((x, y), g)
      else spawn_food fuel snake g
  end.

(** [spawn_power_up]: draw cells until one is off the snake and the food. *)
Fixpoint spawn_power_up (fuel : nat) (snake : list Cell) (food : Cell)
    (g : Random) : outcome (PowerUp * Random) :=
  match fuel with
  | O => OutOfFuel
  | S fuel =>
      let '(x, g) := randint 0 (GRID_WIDTH - 1) g in
      let '(y, g) := randint 0 (GRID_HEIGHT - 1) g in
      if bool_decide ((x, y) ∉ snake) && bool_decide ((x, y) ≠ food) then
        let '(t, g) := choice speed_boost [score_multiplier; invincible] g in
        Returns ({| pos := (x, y); type := t; timer := 300 |}, g)
      else spawn_power_up fuel snake food g
  end.

(** [reset_game]; the game master outlives the session. *)
Definition reset_game (fuel : nat) (am : AIGameMaster) (g : Random)
    : outcome (Game * Random) :=
  let start_x := GRID_WIDTH / 2 in
  let start_y := GRID_HEIGHT / 2 in
  let snake := [(start_x, start_y)] in
  '(food, g) ← spawn_food fuel snake g;
  Returns ({| ai_master := am;
              snake := snake;
              direction := Right;
              last_direction := Right;
              food := food;
              power_ups := [];
              score := 0;
              game_over := false;
              paused := false;
              movement_history := [];
              ai_prediction := None;
              show_ai_hints := true |}, g).

(** The score bonus of [handle_power_up]. *)
Definition handle_power_up (power_up : PowerUp) (score : Z) : Z :=
  match type power_up with
  | score_multiplier => score + 50
  | speed_boost => score + 25
  | invincible => score + 30
  end.

(** [l.remove(x)], with the test for [== x] as a predicate: the first
    element that passes is dropped, and none passing is a [ValueError]. *)
Fixpoint list_remove {A} (same : A -> bool) (l : list A) : outcome (list A) :=
  match l with
  | [] => Raises ValueError
  | y :: rest =>
      if same y then Returns rest
      else rest' ← list_remove same rest; Returns (y :: rest')
  end.

(** The pickup loop.  It walks a copy of [power_ups] while [live], the list
    itself, loses the power-ups under the new head. *)
Fixpoint pickup_loop (copy : list PowerUp) (new_head : Cell)
    (live : list PowerUp) (score : Z) : outcome (list PowerUp * Z) :=
  match copy with
  | [] => Returns (live, score)
  | power_up :: copy =>
      if bool_decide (new_head = pos power_up) then
        live ← list_remove (fun q => bool_decide (q = power_up)) live;
        pickup_loop copy new_head live (handle_power_up power_up score)
      else pickup_loop copy new_head live score
  end.

Definition tick_timer (p : PowerUp) : PowerUp :=
  {| pos := pos p; type := type p; timer := timer p - 1 |}.

(** The timer loop.  The power-ups are objects shared by the copy and the
    list: [heap] holds them, the copy is the indices [i, i+1, ...] and
    [live] the indices still in [power_ups].  Decrementing changes the
    object in the heap; [remove] compares the objects by value. *)
Fixpoint timer_loop (todo : list nat) (heap : list PowerUp) (live : list nat)
    : outcome (list PowerUp * list nat) :=
  match todo with
  | [] => Returns (heap, live)
  | i :: todo =>
      let heap := alter tick_timer i heap in
      if bool_decide (from_option timer 1 (heap !! i) <= 0) then
        live ← list_remove (fun j => bool_decide (heap !! j = heap !! i)) live;
        timer_loop todo heap live
      else timer_loop todo heap live
  end.

(** Both timer passes over [power_ups]: the objects of the list become the
    heap, and the surviving references are read back. *)
Definition update_timers (power_ups : list PowerUp) : outcome (list PowerUp) :=
  let refs := seq 0 (length power_ups) in
  '(heap, live) ← timer_loop refs power_ups refs;
  Returns (omap (fun j : nat => (heap : list PowerUp) !! j) (live : list nat)).

Definition step (d : Direction) (head : Cell) : Cell :=
  let '(head_x, head_y) := head in
  match d with
  | Up => (head_x, head_y - 1)
  | Down => (head_x, head_y + 1)
  | Left => (head_x - 1, head_y)
  | Right => (head_x + 1, head_y)
  end.

(** The collision checks of [update_game], in their order. *)
Definition collision (new_head : Cell) (snake : list Cell)
    : option DeathCause :=
  let '(head_x, head_y) := new_head in
  if (head_x <? 0) || (GRID_WIDTH <=? head_x)
     || (head_y <? 0) || (GRID_HEIGHT <=? head_y) then Some wall
  else if bool_decide (new_head ∈ snake) then Some self
  else None.

(** What the food test of [update_game] leaves: snake, food, power-ups and
    score.  [snake] already has the new head in front. *)
Definition food_branch (fuel : nat) (am : AIGameMaster) (new_head : Cell)
    (snake : list Cell) (food : Cell) (power_ups : list PowerUp) (score : Z)
    (g : Random)
    : outcome (list Cell * Cell * list PowerUp * Z * Random) :=
  if bool_decide (new_head = food) then
    let score := score + 10 in
    '(food, g) ← spawn_food fuel snake g;
    let '(spawn, g) :=
      should_spawn_power_up am score (Z.of_nat (length snake)) g in
    if spawn then
      '(power_up, g) ← spawn_power_up fuel snake food g;
      Returns (snake, food, power_ups ++ [power_up], score, g)
    else Returns (snake, food, power_ups, score, g)
  else Returns (removelast snake, food, power_ups, score, g).

(** [update_game]: one tick.  [t_adapt] and [t_death] are the seconds since
    the start of the session that the clock gives at its two readings. *)
Definition update_game (fuel : nat) (t_adapt t_death : float) (s : Game)
    (g : Random) : outcome (Game * Random) :=
  if paused s || game_over s then Returns (s, g)
  else
    let am := adapt_difficulty (ai_master s) (score s) t_adapt in
    match snake s with
    | [] => Raises IndexError
    | head :: _ =>
        let prediction := predict_next_move am head (last_direction s) in
        let new_head := step (direction s) head in
        match collision new_head (snake s) with
        | Some death_cause =>
            am ← update_player_stats am (score s) t_death death_cause
                                     (movement_history s);
            Returns ({| ai_master := am;
                        snake := snake s;
                        direction := direction s;
                        last_direction := last_direction s;
                        food := food s;
                        power_ups := power_ups s;
                        score := score s;
                        game_over := true;
                        paused := paused s;
                        movement_history := movement_history s;
                        ai_prediction := prediction;
                        show_ai_hints := show_ai_hints s |}, g)
        | None =>
            '(snake', food', power_ups', score', g) ←
              food_branch fuel am new_head (new_head :: snake s) (food s)
                          (power_ups s) (score s) g;
            '(power_ups', score') ←
              pickup_loop power_ups' new_head power_ups' score';
            power_ups' ← update_timers power_ups';
            Returns ({| ai_master := am;
                        snake := snake';
                        direction := direction s;
                        last_direction := direction s;
                        food := food';
                        power_ups := power_ups';
                        score := score';
                        game_over := game_over s;
                        paused := paused s;
                        movement_history := movement_history s;
                        ai_prediction := prediction;
                        show_ai_hints := show_ai_hints s |}, g)
        end
    end.

(** The tape that repeats [xs] forever. *)
Definition cycle (xs : list Z) : nat -> Z :=
  fun i => nth (i mod length xs)%nat xs 0.

Definition source (xs : list Z) : Random := {| tape := cycle xs; cursor := 0 |}.

(** The weights after counting the directions of [l] one by one. *)
Definition tally (l : list Direction) : Weights :=
  fold_left count_direction l [].

(** The prediction as the specification words it: nothing for an empty
    history, else the direction of highest count over the pooled window,
    the first in the order up, down, left, right among equals. *)
Definition predict_by_priority (pd : PlayerData) : option Direction :=
  match movement_patterns pd with
  | [] => None
  | _ :: _ =>
      let count d := occurrences d (pooled pd) in
      let highest :=
        Z.max (Z.max (count Up) (count Down))
              (Z.max (count Left) (count Right)) in
      find (fun d => count d =? highest) [Up; Down; Left; Right]
  end.

(** ** Input and the main loop *)

(** The keys that [handle_input] tells apart, and the events of a frame. *)
Inductive Key :=
  K_ESCAPE | K_SPACE | K_h | K_UP | K_DOWN | K_LEFT | K_RIGHT | K_other.
Inductive Event := QUIT | KEYDOWN (key : Key) | OtherEvent.

#[global] Instance Key_eq_dec : EqDecision Key.
Proof. solve_decision. Defined.

(** The movement-key chain of [handle_input]: the direction that the key
    asks for, unless it is the reverse of the current one. *)
Definition new_direction (key : Key) (direction : Direction)
    : option Direction :=
  if bool_decide (key = K_UP) && bool_decide (direction <> Down) then Some Up
  else if bool_decide (key = K_DOWN) && bool_decide (direction <> Up)
  then Some Down
  else if bool_decide (key = K_LEFT) && bool_decide (direction <> Right)
  then Some Left
  else if bool_decide (key = K_RIGHT) && bool_decide (direction <> Left)
  then Some Right
  else None.

Definition toggle_pause (s : Game) : Game := {|
  ai_master := ai_master s;
  snake := snake s;
  direction := direction s;
  last_direction := last_direction s;
  food := food s;
  power_ups := power_ups s;
  score := score s;
  game_over := game_over s;
  paused := negb (paused s);
  movement_history := movement_history s;
  ai_prediction := ai_prediction s;
  show_ai_hints := show_ai_hints s
|}.

Definition toggle_hints (s : Game) : Game := {|
  ai_master := ai_master s;
  snake := snake s;
  direction := direction s;
  last_direction := last_direction s;
  food := food s;
  power_ups := power_ups s;
  score := score s;
  game_over := game_over s;
  paused := paused s;
  movement_history := movement_history s;
  ai_prediction := ai_prediction s;
  show_ai_hints := negb (show_ai_hints s)
|}.

(** [self.direction = d; self.movement_history.append(d)] *)
Definition turn (d : Direction) (s : Game) : Game := {|
  ai_master := ai_master s;
  snake := snake s;
  direction := d;
  last_direction := last_direction s;
  food := food s;
  power_ups := power_ups s;
  score := score s;
  game_over := game_over s;
  paused := paused s;
  movement_history := movement_history s ++ [d];
  ai_prediction := ai_prediction s;
  show_ai_hints := show_ai_hints s
|}.

(** [handle_input] over the events that [pygame.event.get()] hands over:
    whether the game goes on, and the session.  The fuel is for the
    [spawn_food] of a reset. *)
Fixpoint handle_input (fuel : nat) (events : list Event) (s : Game)
    (g : Random) : outcome (bool * Game * Random) :=
  match events with
  | [] => Returns (true, s, g)
  | event :: events =>
      match event with
      | QUIT => Returns (false, s, g)
      | KEYDOWN key =>
          if bool_decide (key = K_ESCAPE) then Returns (false, s, g)
          else if bool_decide (key = K_SPACE) then
            if game_over s then
              '(s, g) ← reset_game fuel (ai_master s) g;
              handle_input fuel events s g
            else handle_input fuel events (toggle_pause s) g
          else if bool_decide (key = K_h) then
            handle_input fuel events (toggle_hints s) g
          else if negb (paused s) && negb (game_over s) then
            match new_direction key (direction s) with
            | Some d => handle_input fuel events (turn d s) g
            | None => handle_input fuel events s g
            end
          else handle_input fuel events s g
      | OtherEvent => handle_input fuel events s g
      end
  end.

(** What one pass of the loop of [run] takes from outside: the events of
    the frame and the two readings of the clock. *)
Record FrameInput := {
  events : list Event;
  t_adapt : float;
  t_death : float
}.

(** The body of the loop of [run]: input, then the tick (taken also when
    the input asked to quit); drawing changes nothing. *)
Definition frame (fuel : nat) (i : FrameInput) (s : Game) (g : Random)
    : outcome (bool * Game * Random) :=
  '(running, s, g) ← handle_input fuel (events i) s g;
  '(s, g) ← update_game fuel (t_adapt i) (t_death i) s g;
  Returns (running, s, g).

(** The loop of [run] over the frames given: it stops at the first frame
    whose input asks to quit. *)
Fixpoint run (fuel : nat) (frames : list FrameInput) (s : Game) (g : Random)
    : outcome (bool * Game * Random) :=
  match frames with
  | [] => Returns (true, s, g)
  | i :: frames =>
      '(running, s, g) ← frame fuel i s g;
      if running : bool then run fuel frames s g else Returns (false, s, g)
  end.

(** [RetroSnakeGame.__init__], given the profile that [load_player_data]
    leaves: a new game master and the first session. *)
Definition new_RetroSnakeGame (fuel : nat) (loaded : PlayerData) (g : Random)
    : outcome (Game * Random) :=
  reset_game fuel (new_AIGameMaster loaded) g.

(** ** Drawing *)

(** A [pygame.Rect]: left, top, width, height. *)
Record Rect := { rect_left : Z; rect_top : Z; rect_width : Z; rect_height : Z }.

(** The rectangle that [draw_game] fills for a cell of the snake, and for
    the food and a power-up likewise. *)
Definition cell_rect (segment : Cell) : Rect := {|
  rect_left := 15 + segment.1 * GRID_SIZE;
  rect_top := 15 + segment.2 * GRID_SIZE;
  rect_width := GRID_SIZE - 1;
  rect_height := GRID_SIZE - 1
|}.

(** The black background of the game area. *)
Definition game_bg : Rect := {|
  rect_left := 15;
  rect_top := 15;
  rect_width := WINDOW_WIDTH - 30;
  rect_height := GRID_HEIGHT * GRID_SIZE + 10
|}.

(** The window of [pygame.display.set_mode]. *)
Definition window : Rect := {|
  rect_left := 0;
  rect_top := 0;
  rect_width := WINDOW_WIDTH;
  rect_height := WINDOW_HEIGHT
|}.

(** [r] covers no pixel outside [outer]. *)
Definition rect_within (r outer : Rect) : Prop :=
  rect_left outer <= rect_left r /\
  rect_left r + rect_width r <= rect_left outer + rect_width outer /\
  rect_top outer <= rect_top r /\
  rect_top r + rect_height r <= rect_top outer + rect_height outer.

(** ** Notions for the statements *)

(** The cell that the head moves to on the next tick. *)
Definition new_head (s : Game) : option Cell :=
  match snake s with
  | [] => None
  | head :: _ => Some (step (direction s) head)
  end.

(** The source [n] draws further on. *)
Definition skip (n : nat) (g : Random) : Random :=
  {| tape := tape g; cursor := n + cursor g |}.

(** The [k]-th cell that a placement loop started on [g] draws. *)
Definition candidate (g : Random) (k : nat) : Cell :=
  let '(x, g) := randint 0 (GRID_WIDTH - 1) (skip (2 * k) g) in
  let '(y, _) := randint 0 (GRID_HEIGHT - 1) g in
  (x, y).

(** A tape is fair to a set of occupied cells when a placement loop started
    anywhere on it comes to draw a cell off the set, and off any one cell
    more. *)
Definition fair (draws : nat -> Z) (occupied : list Cell) : Prop :=
  forall (c : nat) (f : Cell),
    exists k, candidate {| tape := draws; cursor := c |} k ∉ f :: occupied.

Definition in_grid (c : Cell) : Prop :=
  0 <= c.1 < GRID_WIDTH /\ 0 <= c.2 < GRID_HEIGHT.

(** The cells of the grid, column by column. *)
Definition grid_cells : list Cell :=
  x ← seqZ 0 GRID_WIDTH; y ← seqZ 0 GRID_HEIGHT; [(x, y)].

(** The exceptions of [update_player_stats] on a profile and a score.  The
    averages convert the count of earlier games, the score and the new count
    of games, in this order, and divide by the new count. *)
Definition stats_failure (pd : PlayerData) (score : Z) (e : exn) : Prop :=
  (e = OverflowError /\
   (floatable (games_played pd) = false \/ floatable score = false \/
    floatable (games_played pd + 1) = false)) \/
  (e = ZeroDivisionError /\
   games_played pd = -1 /\ floatable score = true).

(** A profile and a score on which [update_player_stats] raises nothing. *)
Definition recordable (pd : PlayerData) (score : Z) : Prop :=
  games_played pd <> -1 /\ floatable (games_played pd) = true /\
  floatable score = true /\ floatable (games_played pd + 1) = true.

(** ** Sample profiles and sessions *)

(** The statistics that three games of 300 points and 200 seconds, each
    ended at a wall after the moves right, up, leave behind. *)
Definition veteran_data : PlayerData := {|
  games_played := 3;
  avg_score := nearest 300;
  avg_game_time := nearest 200;
  movement_patterns := [[Right; Up]; [Right; Up]; [Right; Up]];
  death_causes := {| dc_wall := 3; dc_self := 0 |};
  preferred_directions := {| n_up := 3; n_down := 0; n_left := 0; n_right := 3 |};
  reaction_times := [];
  skill_level := beginner
|}.

Definition veteran : AIGameMaster := new_AIGameMaster veteran_data.

(** A profile with its game count replaced. *)
Definition set_games_played (n : Z) (pd : PlayerData) : PlayerData := {|
  games_played := n;
  avg_score := avg_score pd;
  avg_game_time := avg_game_time pd;
  movement_patterns := movement_patterns pd;
  death_causes := death_causes pd;
  preferred_directions := preferred_directions pd;
  reaction_times := reaction_times pd;
  skill_level := skill_level pd
|}.

(** A player of three games who scored 60 on average over 40 seconds. *)
Definition casual_data : PlayerData := {|
  games_played := 3;
  avg_score := nearest 60;
  avg_game_time := nearest 40;
  movement_patterns := [[Down]; []; [Left; Left]];
  death_causes := {| dc_wall := 2; dc_self := 1 |};
  preferred_directions := {| n_up := 0; n_down := 1; n_left := 2; n_right := 0 |};
  reaction_times := [];
  skill_level := beginner
|}.

(** The profile after one game in which no key was pressed. *)
Definition idle_data : PlayerData := {|
  games_played := 1;
  avg_score := zero;
  avg_game_time := nearest 2;
  movement_patterns := [[]];
  death_causes := {| dc_wall := 1; dc_self := 0 |};
  preferred_directions := {| n_up := 0; n_down := 0; n_left := 0; n_right := 0 |};
  reaction_times := [];
  skill_level := beginner
|}.

(** The session that [reset_game] opens for a new player when the source
    draws 21 and 12: the food lies right in front of the snake. *)
Definition opening : Game := {|
  ai_master := new_AIGameMaster default_player_data;
  snake := [(20, 12)];
  direction := Right;
  last_direction := Right;
  food := (21, 12);
  power_ups := [];
  score := 0;
  game_over := false;
  paused := false;
  movement_history := [];
  ai_prediction := None;
  show_ai_hints := true
|}.

(** A snake of four cells curled up so that its head, turned down and then
    left, is about to enter the cell its tail is leaving. *)
Definition curled : Game := {|
  ai_master := new_AIGameMaster default_player_data;
  snake := [(6, 6); (6, 5); (5, 5); (5, 6)];
  direction := Left;
  last_direction := Down;
  food := (30, 20);
  power_ups := [ {| pos := (10, 10); type := invincible; timer := 120 |} ];
  score := 30;
  game_over := false;
  paused := false;
  movement_history := [Up; Right; Down; Left];
  ai_prediction := None;
  show_ai_hints := true
|}.

(** A snake of two cells at the right-hand wall and heading for it, with a
    power-up on the board. *)
Definition at_wall : Game := {|
  ai_master := new_AIGameMaster default_player_data;
  snake := [(39, 3); (38, 3)];
  direction := Right;
  last_direction := Right;
  food := (30, 20);
  power_ups := [ {| pos := (10, 10); type := invincible; timer := 120 |} ];
  score := 10;
  game_over := false;
  paused := false;
  movement_history := [Up; Right];
  ai_prediction := None;
  show_ai_hints := true
|}.

(** The session that [opening] comes to when the snake has eaten the food
    in front of it, the next food and a power-up have been placed, and the
    keys up and left of one frame have turned the snake back on its neck. *)
Definition turned_back : Game := {|
  ai_master := adapt_difficulty (new_AIGameMaster default_player_data) 0 zero;
  snake := [(21, 12); (20, 12)];
  direction := Left;
  last_direction := Right;
  food := (5, 7);
  power_ups := [ {| pos := (3, 3); type := score_multiplier; timer := 299 |} ];
  score := 10;
  game_over := false;
  paused := false;
  movement_history := [Up; Left];
  ai_prediction := None;
  show_ai_hints := true
|}.

(** The same snake one move earlier, still heading down. *)
Definition curled_free : Game := {|
  ai_master := new_AIGameMaster default_player_data;
  snake := [(6, 6); (6, 5); (5, 5); (5, 6)];
  direction := Down;
  last_direction := Down;
  food := (30, 20);
  power_ups := [ {| pos := (10, 10); type := invincible; timer := 120 |} ];
  score := 30;
  game_over := false;
  paused := false;
  movement_history := [Up; Right; Down];
  ai_prediction := None;
  show_ai_hints := true
|}.

(** The direction that an arrow key stands for. *)
Definition arrow (key : Key) : option Direction :=
  match key with
  | K_UP => Some Up
  | K_DOWN => Some Down
  | K_LEFT => Some Left
  | K_RIGHT => Some Right
  | _ => None
  end.

(** Events that are neither a quit nor the space, escape or hint key. *)
Definition plain_event (e : Event) : Prop :=
  match e with
  | QUIT => False
  | KEYDOWN key => key <> K_ESCAPE /\ key <> K_SPACE /\ key <> K_h
  | OtherEvent => True
  end.

(** ** Notions for the invariants *)

Definition opposite (d : Direction) : Direction :=
  match d with
  | Up => Down
  | Down => Up
  | Left => Right
  | Right => Left
  end.

(** Each cell of the snake is one step from the next. *)
Fixpoint chain (l : list Cell) : Prop :=
  match l with
  | a :: (b :: _) as rest => (exists d, a = step d b) /\ chain rest
  | _ => True
  end.

(** The points that picking [p] up gives. *)
Definition bonus (p : PowerUp) : Z := handle_power_up p 0.

Definition total_bonus (l : list PowerUp) : Z :=
  foldr (fun p acc => bonus p + acc) 0 l.

(** What holds of every session that play reaches. *)
Record well_formed (s : Game) : Prop := {
  wf_snake : snake s <> [];
  wf_distinct : NoDup (snake s);
  wf_in_grid : Forall in_grid (snake s);
  wf_chain : chain (snake s);
  wf_neck :
    forall head neck rest,
      snake s = head :: neck :: rest -> head = step (last_direction s) neck;
  wf_food : (food s ∉ snake s) /\ in_grid (food s);
  wf_power_ups :
    Forall (fun p => (pos p ∉ snake s) /\ in_grid (pos p) /\
                     0 < timer p <= 299) (power_ups s);
  wf_score : 10 * (Z.of_nat (length (snake s)) - 1) <= score s
}.

(** The session of [at_wall] once the snake has hit the wall. *)
Definition wrecked : Game := {|
  ai_master := new_AIGameMaster idle_data;
  snake := [(39, 3); (38, 3)];
  direction := Right;
  last_direction := Right;
  food := (30, 20);
  power_ups := [ {| pos := (10, 10); type := invincible; timer := 120 |} ];
  score := 10;
  game_over := true;
  paused := false;
  movement_history := [Up; Right];
  ai_prediction := None;
  show_ai_hints := true
|}.

(** Four frames of a first game: the snake eats the food in front of it,
    turns up, the game is paused, and the player quits. *)
Definition first_frames : list FrameInput :=
  [ {| events := []; t_adapt := zero; t_death := zero |};
    {| events := [KEYDOWN K_UP]; t_adapt := nearest 1; t_death := nearest 1 |};
    {| events := [OtherEvent; KEYDOWN K_SPACE];
       t_adapt := nearest 2; t_death := nearest 2 |};
    {| events := [QUIT]; t_adapt := nearest 3; t_death := nearest 3 |} ].

(** ** A perfect game

    A walk from the centre of the grid through all its 1000 cells, as runs
    of equal moves: along row 12 to the right-hand wall; up and down the
    columns 39 to 0 of the rows 0 to 11; to and fro along the rows 12 to 24
    of the columns 0 to 19; up and down the columns 20 to 39 of the rows 13
    to 24, ending in the corner (39, 24). *)
Definition tour_runs : list (Direction * nat) :=
  [(Right, 19%nat); (Up, 1%nat)]
  ++ flat_map (fun c => [(if Nat.odd c then Up else Down, 11%nat);
                         (Left, 1%nat)])
              (rev (seq 1 39))
  ++ [(Down, 11%nat); (Down, 1%nat)]
  ++ flat_map (fun r => [(if Nat.even r then Right else Left, 19%nat);
                         (Down, 1%nat)])
              (seq 0 12)
  ++ [(Right, 19%nat); (Right, 1%nat)]
  ++ flat_map (fun c => [(if Nat.even c then Up else Down, 11%nat);
                         (Right, 1%nat)])
              (seq 0 19)
  ++ [(Down, 11%nat)].

Definition tour : list Direction :=
  flat_map (fun r : Direction * nat => replicate r.2 r.1) tour_runs.

(** The cells that a head at [from] comes to on the moves given. *)
Fixpoint walk (from : Cell) (moves : list Direction) : list Cell :=
  match moves with
  | [] => []
  | d :: moves => step d from :: walk (step d from) moves
  end.

Definition tour_cells : list Cell := walk (20, 12) tour.

Definition arrow_key (d : Direction) : Key :=
  match d with
  | Up => K_UP
  | Down => K_DOWN
  | Left => K_LEFT
  | Right => K_RIGHT
  end.

(** The player presses the key of the next move of the tour in each frame. *)
Definition perfect_frames : list FrameInput :=
  (fun d => {| events := [KEYDOWN (arrow_key d)];
               t_adapt := zero; t_death := zero |}) <$> take 998 tour.

(** The draws of the game: the first food next to the snake, then at each
    meal the next cell of the tour for the food and a draw of
    [(2^53 - 1) / 2^53] against a power-up. *)
Definition perfect_draws : list Z :=
  [21; 12]
  ++ flat_map (fun c : Cell => [c.1; c.2; 2 ^ 53 - 1]) (drop 1 tour_cells).

(** The session of a new player after [n] meals ([2 <= n]) along the tour. *)
Definition perfect_session (n : nat) : Game := {|
  ai_master :=
    adapt_difficulty (new_AIGameMaster default_player_data)
                     (10 * (Z.of_nat n - 1)) zero;
  snake := rev ((20, 12) :: take n tour_cells);
  direction := default Right (last (take n tour));
  last_direction := default Right (last (take n tour));
  food := default (0, 0) (tour_cells !! n);
  power_ups := [];
  score := 10 * Z.of_nat n;
  game_over := false;
  paused := false;
  movement_history := take n tour;
  ai_prediction := None;
  show_ai_hints := true
|}.

(** The snake has 998 cells; the food and the corner (39, 24) are free. *)
Definition nearly_full : Game := perfect_session 997.

(** The snake has 999 cells, and the food lies on the last free cell. *)
Definition crowded : Game := perfect_session 998.

(** * Properties *)

(** ** The float literals of the program *)

(** [0.4] is [0x1.999999999999ap-2], and [0.4 * 1.5] rounds up to
    [0.6000000000000001]. *)
Example literal_0_4 :
  literal 4 10 = S754_finite false 0x1999999999999a (-54).
Proof. reflexivity. Qed.

Example literal_0_4_times_1_5 :
  mul (literal 4 10) (literal 15 10)
  = S754_finite false 0x13333333333334 (-53).
Proof. reflexivity. Qed.

(** A new player's first ten points are above [0 * 1.2], which speeds a
    beginner up from 8 to 11. *)
Example adapt_difficulty_first_points :
  current_speed
    (adapt_difficulty (new_AIGameMaster default_player_data) 10 zero) = 11.
Proof. reflexivity. Qed.

(** ** Integers against floats *)

(** An integer is compared with a float as it is: [2^53 + 1] is above the
    float [2^53] that it would convert to, and 10 is below 10.5. *)
Example int_compare_exact :
  nearest (2 ^ 53 + 1) = nearest (2 ^ 53) /\
  int_gt (2 ^ 53 + 1) (nearest (2 ^ 53)) = true /\
  int_lt (2 ^ 53 - 1) (nearest (2 ^ 53)) = true /\
  int_lt 10 (literal 21 2) = true /\ int_gt 11 (literal 21 2) = true /\
  int_gt (-10) (literal (-21) 2) = true /\
  int_gt 0 S754_nan = false /\ int_lt 0 S754_nan = false /\
  int_lt (2 ^ 2000) (S754_infinity false) = true.
Proof. vm_compute. split_and!; reflexivity. Qed.

(** An integer operand of an addition or a division is converted: one
    from [2^1024 - 2^970] on raises [OverflowError]. *)
Example of_int_range :
  of_int (2 ^ 1024 - 2 ^ 970 - 1)
  = Returns (S754_finite false 0x1fffffffffffff 971) /\
  of_int (2 ^ 1024 - 2 ^ 970) = Raises OverflowError /\
  of_int (- 2 ^ 1024) = Raises OverflowError.
Proof. vm_compute. split_and!; reflexivity. Qed.

Example update_player_stats_overflow :
  update_player_stats (new_AIGameMaster default_player_data)
                      (10 ^ 400) (nearest 2) wall []
  = Raises OverflowError.
Proof. vm_compute. reflexivity. Qed.

(** ** The sample profiles are reached by play *)

Example idle_data_reached :
  update_player_stats (new_AIGameMaster default_player_data)
                      0 (nearest 2) wall []
  = Returns (new_AIGameMaster idle_data).
Proof. reflexivity. Qed.

Example veteran_data_reached :
  (am1 ← update_player_stats (new_AIGameMaster default_player_data)
                             300 (nearest 200) wall [Right; Up];
   am2 ← update_player_stats am1 300 (nearest 200) wall [Right; Up];
   update_player_stats am2 300 (nearest 200) wall [Right; Up])
  = Returns veteran.
Proof. reflexivity. Qed.

(** ** Order on floats *)

Lemma ltb_leb_trans (x y z : float) :
  ltb x y = true -> leb y z = true -> ltb x z = true.
Proof.
  unfold ltb, leb, SFltb, SFleb, SFcompare.
  destruct x as [| [] | | [] mx ex], y as [| [] | | [] my ey],
           z as [| [] | | [] mz ez]; simpl; try done.
  all: change (PosDef.Pos.compare_cont Eq ?a ?b) with (Pos.compare a b).
  all: destruct (Z.compare_spec ex ey), (Z.compare_spec ey ez),
         (Z.compare_spec ex ez); try done; try lia.
  all: destruct (Pos.compare_spec mx my), (Pos.compare_spec my mz),
         (Pos.compare_spec mx mz); simpl; try done; lia.
Qed.

Lemma gt_int_mono (lo hi : float) (k : Z) :
  leb lo hi = true -> gt_int lo k = true -> gt_int hi k = true.
Proof. unfold gt_int. intros Hle Hlt. exact (ltb_leb_trans _ _ _ Hlt Hle). Qed.

(** ** Skill classification and difficulty *)

Lemma analyze_skill_level_set_skill_level (s : Skill) (pd : PlayerData) :
  analyze_skill_level (set_skill_level s pd) = analyze_skill_level pd.
Proof. reflexivity. Qed.

(** Between two profiles of at least three games, the higher averages give
    the higher tier. *)
Lemma tier_rank_monotone (lo hi : PlayerData) :
  3 <= games_played lo -> 3 <= games_played hi ->
  leb (avg_score lo) (avg_score hi) = true ->
  leb (avg_game_time lo) (avg_game_time hi) = true ->
  tier_rank (analyze_skill_level lo) <= tier_rank (analyze_skill_level hi).
Proof.
  intros Hlo Hhi Hscore Htime.
  pose proof (fun k => gt_int_mono _ _ k Hscore) as Hs.
  pose proof (fun k => gt_int_mono _ _ k Htime) as Ht.
  unfold analyze_skill_level.
  destruct (Z.ltb_spec (games_played lo) 3); [lia |].
  destruct (Z.ltb_spec (games_played hi) 3); [lia |].
  cbv zeta.
  destruct (gt_int (avg_score lo) 200) eqn:S200;
    [rewrite (Hs 200 S200) | clear S200];
  destruct (gt_int (avg_game_time lo) 120) eqn:T120;
    [rewrite (Ht 120 T120) | clear T120 | rewrite (Ht 120 T120) | clear T120];
  destruct (gt_int (avg_score lo) 100) eqn:S100;
    try rewrite (Hs 100 S100); clear S100;
  destruct (gt_int (avg_game_time lo) 60) eqn:T60;
    try rewrite (Ht 60 T60); clear T60;
  destruct (gt_int (avg_score lo) 50) eqn:S50;
    try rewrite (Hs 50 S50); clear S50;
  destruct (gt_int (avg_game_time lo) 30) eqn:T30;
    try rewrite (Ht 30 T30); clear T30;
  simpl;
  repeat match goal with
         | |- context [gt_int ?f ?k] => destruct (gt_int f k)
         end; simpl; lia.
Qed.

(** C5.  On every profile, whatever its game count and its averages (a NaN
    included), [analyze_skill_level] is the first-match lookup in the table
    of the four guarded clauses with [beginner] as the last resort, so a
    profile of fewer than three games is a beginner's.  And it is monotone:
    between two profiles of at least three games, the one whose average
    score and average game time are both at least the other's has a tier
    rank at least the other's. *)
Theorem analyze_skill_level_monotone :
  (forall pd : PlayerData,
     analyze_skill_level pd = first_match beginner (skill_table pd)) /\
  (forall pd : PlayerData,
     games_played pd < 3 -> analyze_skill_level pd = beginner) /\
  (forall lo hi : PlayerData,
     3 <= games_played lo -> 3 <= games_played hi ->
     leb (avg_score lo) (avg_score hi) = true ->
     leb (avg_game_time lo) (avg_game_time hi) = true ->
     tier_rank (analyze_skill_level lo) <= tier_rank (analyze_skill_level hi)).
Proof.
  split_and!.
  - reflexivity.
  - intros pd Hfew. unfold analyze_skill_level.
    destruct (Z.ltb_spec (games_played pd) 3); [done | lia].
  - apply tier_rank_monotone.
Qed.

(** A player of two games with the averages of an expert is a beginner by
    the table, and the casual player ranks no higher than the veteran. *)
Lemma analyze_skill_level_monotone_witness :
  analyze_skill_level (set_games_played 2 veteran_data) = beginner /\
  first_match beginner (skill_table (set_games_played 2 veteran_data))
  = beginner /\
  tier_rank (analyze_skill_level casual_data) = 1 /\
  tier_rank (analyze_skill_level veteran_data) = 3 /\
  tier_rank (analyze_skill_level casual_data)
  <= tier_rank (analyze_skill_level veteran_data).
Proof.
  destruct analyze_skill_level_monotone as (Htable & Hfew & Hmono).
  split_and!.
  - apply Hfew. cbn. lia.
  - rewrite <- Htable. apply Hfew. cbn. lia.
  - reflexivity.
  - reflexivity.
  - apply (Hmono casual_data veteran_data); vm_compute; congruence.
Defined.

(** C6.  The speed that [adapt_difficulty] sets is [min(base + 3, 25)],
    [max(base - 2, 6)] or [base] for the tier's base speed, by the two
    comparisons of the current score with the average, and in every case
    lies between 6 and 25. *)
Theorem adapt_difficulty_speed_range (am : AIGameMaster) (current_score : Z)
    (game_time : float) :
  let base := base_speeds (analyze_skill_level (player_data am)) in
  let avg := avg_score (player_data am) in
  current_speed (adapt_difficulty am current_score game_time)
  = (if int_gt current_score (mul avg (literal 12 10)) then Z.min (base + 3) 25
     else if int_lt current_score (mul avg (literal 8 10)) then Z.max (base - 2) 6
     else base)
  /\ 6 <= current_speed (adapt_difficulty am current_score game_time) <= 25.
Proof.
  cbv zeta. split; [reflexivity |].
  unfold adapt_difficulty; cbn [current_speed set_skill_level avg_score].
  destruct (analyze_skill_level (player_data am)); cbn [base_speeds];
    destruct (int_gt _ _); try lia; destruct (int_lt _ _); lia.
Qed.

(** The profile is rewritten by [adapt_difficulty]: the stored tier of a
    player whose averages have outgrown it changes. *)
Lemma adapt_difficulty_changes_profile :
  skill_level (player_data veteran) = beginner /\
  skill_level (player_data (adapt_difficulty veteran 0 zero)) = expert /\
  player_data (adapt_difficulty veteran 0 zero) <> player_data veteran.
Proof. split; [reflexivity | split; [reflexivity | discriminate]]. Qed.

(** C2, as the code has it.  Adapting twice on the same score and time gives
    what adapting once gives, and the adaptation leaves every field of the
    profile as it was except [skill_level], which it sets to the tier
    computed by [analyze_skill_level]. *)
Theorem adapt_difficulty_idempotent (am : AIGameMaster) (current_score : Z)
    (game_time : float) :
  let am' := adapt_difficulty am current_score game_time in
  let pd := player_data am in
  let pd' := player_data am' in
  adapt_difficulty am' current_score game_time = am' /\
  games_played pd' = games_played pd /\
  avg_score pd' = avg_score pd /\
  avg_game_time pd' = avg_game_time pd /\
  movement_patterns pd' = movement_patterns pd /\
  death_causes pd' = death_causes pd /\
  preferred_directions pd' = preferred_directions pd /\
  reaction_times pd' = reaction_times pd /\
  skill_level pd' = analyze_skill_level pd.
Proof. cbv zeta. repeat split. Qed.

(** ** Prediction *)

Lemma dict_get_set_eq (w : Weights) (k : Direction) (v default : Z) :
  dict_get (dict_set w k v) k default = v.
Proof.
  induction w as [| [k' v'] w IH]; cbn [dict_get dict_set].
  - by case_decide.
  - case_decide; cbn [dict_get]; by case_decide.
Qed.

Lemma dict_get_set_ne (w : Weights) (k k' : Direction) (v default : Z) :
  k <> k' -> dict_get (dict_set w k v) k' default = dict_get w k' default.
Proof.
  intros Hne. induction w as [| [k0 v0] w IH]; cbn [dict_get dict_set].
  - by case_decide.
  - case_decide; cbn [dict_get]; repeat case_decide; congruence.
Qed.

Lemma dict_keys_set (w : Weights) (k : Direction) (v : Z) :
  dict_keys (dict_set w k v)
  = if decide (k ∈ dict_keys w) then dict_keys w else dict_keys w ++ [k].
Proof.
  unfold dict_keys.
  induction w as [| [k' v'] w IH]; cbn [dict_set fmap list_fmap fst].
  - destruct (decide (k ∈ [])) as [Hin | _]; [by apply elem_of_nil in Hin | done].
  - destruct (decide (k' = k)) as [-> | Hne]; cbn [fmap list_fmap fst].
    + destruct (decide (k ∈ k :: w.*1)) as [_ | Hout]; [done |].
      destruct Hout; apply list_elem_of_here.
    + rewrite IH.
      destruct (decide (k ∈ w.*1)) as [Hin | Hout],
               (decide (k ∈ k' :: w.*1)) as [Hin' | Hout']; try done.
      * destruct Hout'. by apply list_elem_of_further.
      * apply elem_of_cons in Hin' as [? | ?]; congruence.
Qed.

Lemma tally_snoc (l : list Direction) (d : Direction) :
  tally (l ++ [d]) = count_direction (tally l) d.
Proof. unfold tally. by rewrite fold_left_app. Qed.

Lemma occurrences_snoc (d x : Direction) (l : list Direction) :
  occurrences d (l ++ [x])
  = occurrences d l + (if decide (x = d) then 1 else 0).
Proof.
  unfold occurrences. rewrite filter_app, length_app, filter_cons, filter_nil.
  destruct (decide (d = x)) as [-> | Hne].
  - rewrite decide_True by done. simpl. lia.
  - rewrite decide_False by congruence. simpl. lia.
Qed.

Lemma occurrences_absent (d : Direction) (l : list Direction) :
  d ∉ l -> occurrences d l = 0.
Proof.
  unfold occurrences. induction l as [| x l IH]; intros Hout; [done |].
  apply not_elem_of_cons in Hout as [Hne Hout].
  rewrite filter_cons. destruct (decide (d = x)); [done | by apply IH].
Qed.

(** The weight of a direction is the number of its occurrences. *)
Lemma tally_get (l : list Direction) (d : Direction) :
  dict_get (tally l) d 0 = occurrences d l.
Proof.
  induction l as [| x l IH] using rev_ind; [done |].
  rewrite tally_snoc, occurrences_snoc. unfold count_direction.
  destruct (decide (x = d)) as [-> | Hne].
  - rewrite dict_get_set_eq. lia.
  - rewrite dict_get_set_ne by done. lia.
Qed.

(** The keys are the directions that occur. *)
Lemma tally_keys (l : list Direction) (d : Direction) :
  d ∈ dict_keys (tally l) <-> d ∈ l.
Proof.
  induction l as [| x l IH] using rev_ind.
  - split; intros []%elem_of_nil.
  - rewrite tally_snoc. unfold count_direction. rewrite dict_keys_set.
    rewrite elem_of_app, list_elem_of_singleton.
    destruct (decide (x ∈ dict_keys (tally l))) as [Hin | Hout].
    + rewrite IH. split; [tauto |]. intros [? | ->]; [done |].
      by apply IH.
    + rewrite elem_of_app, list_elem_of_singleton, IH. tauto.
Qed.

(** The keys stand in the order of first occurrence: whatever precedes the
    first occurrence of a key in [l] is an earlier key. *)
Lemma tally_order (l : list Direction) (ks1 ks2 : list Direction)
    (k : Direction) :
  dict_keys (tally l) = ks1 ++ k :: ks2 ->
  exists l1 l2, l = l1 ++ k :: l2 /\ forall x, x ∈ l1 -> x ∈ ks1.
Proof.
  revert ks1 ks2 k.
  induction l as [| x l IH] using rev_ind; intros ks1 ks2 k Hkeys.
  - by destruct ks1.
  - rewrite tally_snoc in Hkeys. unfold count_direction in Hkeys.
    rewrite dict_keys_set in Hkeys.
    destruct (decide (x ∈ dict_keys (tally l))) as [Hin | Hout].
    + destruct (IH _ _ _ Hkeys) as (l1 & l2 & -> & Hl1).
      exists l1, (l2 ++ [x]). by rewrite <- app_assoc.
    + destruct ks2 as [| k2 ks2 _] using rev_ind.
      * apply app_inj_tail in Hkeys as [Hks <- ].
        exists l, []. split; [done |].
        intros y Hy. rewrite <- Hks. by apply tally_keys.
      * rewrite app_comm_cons, app_assoc in Hkeys.
        apply app_inj_tail in Hkeys as [Hks _].
        destruct (IH _ _ _ Hks) as (l1 & l2 & -> & Hl1).
        exists l1, (l2 ++ [x]). by rewrite <- app_assoc.
Qed.

(** [py_max] returns the first item of maximal key. *)
Lemma py_max_first {A} (key : A -> Z) (first : A) (rest : list A) :
  exists l1 l2,
    first :: rest = l1 ++ py_max key first rest :: l2 /\
    (forall y, y ∈ l1 -> key y < key (py_max key first rest)) /\
    (forall y, y ∈ l2 -> key y <= key (py_max key first rest)).
Proof.
  unfold py_max. revert first.
  induction rest as [| x rest IH]; intros first; simpl.
  - exists [], []. split; [done |]. split; intros y []%elem_of_nil.
  - destruct (Z.ltb_spec (key first) (key x)) as [Hlt | Hge].
    + destruct (IH x) as (l1 & l2 & Heq & Hl1 & Hl2).
      remember (fold_left _ rest x) as m eqn:Hm. clear Hm.
      assert (key x <= key m) as Hxm.
      { destruct l1 as [| y l1]; simplify_eq/=; [lia |].
        specialize (Hl1 y (list_elem_of_here _ _)). lia. }
      exists (first :: l1), l2. rewrite Heq. split; [done |].
      split; [| done]. intros y [-> | Hy]%elem_of_cons; [lia | auto].
    + destruct (IH first) as (l1 & l2 & Heq & Hl1 & Hl2).
      remember (fold_left _ rest first) as m eqn:Hm. clear Hm.
      destruct l1 as [| y l1]; simplify_eq/=.
      * exists [], (x :: l2). split; [done |].
        split; [intros y []%elem_of_nil |].
        intros y [-> | Hy]%elem_of_cons; [lia | auto].
      * exists (y :: x :: l1), l2. split; [done |].
        split; [| done].
        intros z [-> | [-> | Hz]%elem_of_cons]%elem_of_cons.
        -- apply Hl1, list_elem_of_here.
        -- specialize (Hl1 y (list_elem_of_here _ _)). lia.
        -- by apply Hl1, list_elem_of_further.
Qed.

Lemma fold_left_patterns (patterns : list (list Direction)) (w : Weights) :
  fold_left (fun w pattern => fold_left count_direction pattern w) patterns w
  = fold_left count_direction (concat patterns) w.
Proof.
  revert w. induction patterns as [| p patterns IH]; intros w; [done |].
  cbn [fold_left concat]. by rewrite fold_left_app, IH.
Qed.

(** The prediction in terms of the weights of the pooled window. *)
Lemma predict_next_move_tally (am : AIGameMaster) (snake_head : Z * Z)
    (last_direction : Direction) :
  predict_next_move am snake_head last_direction
  = match dict_keys (tally (pooled (player_data am))) with
    | [] => None
    | k :: ks =>
        Some (py_max (fun d => dict_get (tally (pooled (player_data am))) d 0)
                     k ks)
    end.
Proof.
  unfold predict_next_move, pooled, tally.
  destruct (movement_patterns (player_data am)) as [| p ps] eqn:Hps; [done |].
  cbv zeta. by rewrite fold_left_patterns.
Qed.

Lemma concat_nil_iff {A} (ls : list (list A)) :
  concat ls = [] <-> forall l, l ∈ ls -> l = [].
Proof.
  induction ls as [| l ls IH]; cbn [concat].
  - split; [intros _ l []%elem_of_nil | done].
  - split.
    + intros [-> Hls]%app_eq_nil l' [-> | Hin]%elem_of_cons; [done |].
      by apply IH.
    + intros Hall. rewrite (Hall l (list_elem_of_here _ _)).
      apply IH. intros l' Hl'. by apply Hall, list_elem_of_further.
Qed.

(** A history that is not empty and yet predicts nothing: one game in
    which no key was pressed. *)
Lemma predict_next_move_none_on_idle_history :
  movement_patterns idle_data <> [] /\
  predict_next_move (new_AIGameMaster idle_data) (20, 12) Right = None.
Proof. split; [discriminate | reflexivity]. Qed.

(** C3, as the code has it.  [predict_next_move] returns [None] exactly when
    each of the ten most recent entries of the history is empty, which an
    empty history is a case of; when a direction occurs among them it
    returns a direction. *)
Theorem predict_next_move_none_iff (am : AIGameMaster) (snake_head : Z * Z)
    (last_direction : Direction) :
  predict_next_move am snake_head last_direction = None
  <-> forall pattern,
        pattern ∈ last_n 10 (movement_patterns (player_data am)) ->
        pattern = [].
Proof.
  rewrite predict_next_move_tally, <- concat_nil_iff.
  fold (pooled (player_data am)).
  destruct (dict_keys (tally (pooled (player_data am)))) as [| k ks] eqn:Hkeys.
  - split; [intros _ | done].
    destruct (pooled (player_data am)) as [| d p] eqn:Hp; [done |].
    assert (d ∈ dict_keys (tally (d :: p))) as Hd
      by apply tally_keys, list_elem_of_here.
    rewrite Hkeys in Hd. by apply elem_of_nil in Hd.
  - split; [done |]. intros Hp. rewrite Hp in Hkeys. done.
Qed.

(** Two directions tied for the highest count, and the prediction is not
    the one that the order up, down, left, right puts first. *)
Lemma predict_next_move_tie_not_by_priority :
  occurrences Up (pooled veteran_data) = 3 /\
  occurrences Right (pooled veteran_data) = 3 /\
  predict_by_priority veteran_data = Some Up /\
  predict_next_move veteran (20, 12) Right = Some Right.
Proof. repeat split. Qed.

(** C4, as the code has it.  The direction predicted has the highest count
    over the pooled window, and among the directions tied for it is the one
    that occurs first in the window; the snake's head and the last
    direction have no part in it. *)
Theorem predict_next_move_first_seen (am : AIGameMaster) (snake_head : Z * Z)
    (last_direction d : Direction)
    (Hd : predict_next_move am snake_head last_direction = Some d) :
  let window := pooled (player_data am) in
  (forall d', occurrences d' window <= occurrences d window) /\
  (exists i, window !! i = Some d /\
     forall j d', window !! j = Some d' ->
       occurrences d' window = occurrences d window -> (i <= j)%nat) /\
  (forall snake_head' last_direction',
     predict_next_move am snake_head' last_direction' = Some d).
Proof.
  cbv zeta. split; [| split]; [| | intros; exact Hd].
  all: rewrite predict_next_move_tally in Hd.
  all: destruct (dict_keys (tally (pooled (player_data am))))
         as [| k ks] eqn:Hkeys; [done |].
  all: destruct (py_max_first
                   (fun d => dict_get (tally (pooled (player_data am))) d 0)
                   k ks) as (l1 & l2 & Hsplit & Hl1 & Hl2).
  all: injection Hd as Hd; rewrite Hd in Hsplit, Hl1, Hl2; clear Hd.
  all: setoid_rewrite tally_get in Hl1; setoid_rewrite tally_get in Hl2.
  all: rewrite Hsplit in Hkeys.
  - intros d'.
    destruct (decide (d' ∈ pooled (player_data am))) as [Hin | Hout].
    + apply tally_keys in Hin. rewrite Hkeys in Hin.
      apply elem_of_app in Hin as [Hin | [-> | Hin]%elem_of_cons].
      * specialize (Hl1 _ Hin). lia.
      * lia.
      * by apply Hl2.
    + rewrite (occurrences_absent _ _ Hout). unfold occurrences. lia.
  - destruct (tally_order _ _ _ _ Hkeys) as (p1 & p2 & Hp & Hp1).
    exists (length p1). rewrite Hp. split.
    + by rewrite list_lookup_middle.
    + intros j d' Hj Htie.
      destruct (decide (length p1 <= j)%nat) as [Hle | Hgt]; [done |].
      rewrite lookup_app_l in Hj by lia.
      apply list_elem_of_lookup_2, Hp1, Hl1 in Hj.
      rewrite <- Hp in Htie. lia.
Qed.

(** Three games of right, up: both directions occur three times and right,
    seen first, is predicted. *)
Lemma predict_next_move_first_seen_witness :
  (forall d', occurrences d' (pooled veteran_data)
              <= occurrences Right (pooled veteran_data)) /\
  (exists i, pooled veteran_data !! i = Some Right /\
     forall j d', pooled veteran_data !! j = Some d' ->
       occurrences d' (pooled veteran_data)
       = occurrences Right (pooled veteran_data) -> (i <= j)%nat) /\
  (forall snake_head' last_direction',
     predict_next_move veteran snake_head' last_direction' = Some Right).
Proof.
  apply (predict_next_move_first_seen veteran (20, 12) Right Right).
  reflexivity.
Defined.

(** ** The two passes over the power-ups *)

Lemma list_remove_middle {A} (same : A -> bool) (l1 l2 : list A) (x : A) :
  Forall (fun y => same y = false) l1 -> same x = true ->
  list_remove same (l1 ++ x :: l2) = Returns (l1 ++ l2).
Proof.
  intros Hl1 Hx. induction Hl1 as [| y l1 Hy _ IH]; cbn [list_remove app].
  - by rewrite Hx.
  - by rewrite Hy, IH.
Qed.

(** Each [remove] of the pickup loop takes out the power-up in hand, so
    the loop keeps the power-ups that are not under the new head. *)
Lemma pickup_loop_filter (copy kept : list PowerUp) (new_head : Cell)
    (score : Z) :
  Forall (fun p => new_head <> pos p) kept ->
  exists score',
    pickup_loop copy new_head (kept ++ copy) score
    = Returns (kept ++ filter (fun p => new_head <> pos p) copy, score').
Proof.
  revert kept score.
  induction copy as [| p copy IH]; intros kept score Hkept;
    cbn [pickup_loop].
  - exists score. by rewrite filter_nil.
  - rewrite filter_cons. case_bool_decide as Hp.
    + rewrite list_remove_middle; cycle 1.
      { eapply Forall_impl; [exact Hkept |]. intros q Hq.
        apply bool_decide_eq_false. intros ->. by apply Hq. }
      { by apply bool_decide_eq_true. }
      rewrite decide_False by (by intros Hne; apply Hne).
      apply IH, Hkept.
    + rewrite decide_True by done.
      destruct (IH (kept ++ [p]) score) as [score' Hloop].
      { apply Forall_app. split; [done | by apply Forall_singleton]. }
      exists score'. by rewrite <- !app_assoc in Hloop.
Qed.

(** Each [remove] of the timer loop takes out the power-up whose timer has
    just run out, so the loop decrements every timer and keeps the
    power-ups with time left. *)
Lemma timer_loop_filter (rest done : list PowerUp) (kept : list nat) :
  Forall (fun j => exists q, done !! j = Some q /\ 0 < timer q) kept ->
  exists live,
    timer_loop (seq (length done) (length rest)) (done ++ rest)
               (kept ++ seq (length done) (length rest))
    = Returns (done ++ (tick_timer <$> rest), live) /\
    omap (fun j => (done ++ (tick_timer <$> rest)) !! j) live
    = omap (fun j => done !! j) kept
      ++ filter (fun p => 0 < timer p) (tick_timer <$> rest).
Proof.
  revert done kept.
  induction rest as [| p rest IH]; intros done kept Hkept.
  - exists kept. cbn. rewrite !app_nil_r. split; [done |].
    done.
  - cbn [length seq timer_loop].
    assert (alter tick_timer (length done) (done ++ p :: rest)
            = (done ++ [tick_timer p]) ++ rest) as ->.
    { rewrite alter_app_r_alt by lia. rewrite Nat.sub_diag.
      by rewrite <- app_assoc. }
    assert (((done ++ [tick_timer p]) ++ rest) !! length done
            = Some (tick_timer p)) as Hat.
    { rewrite <- app_assoc. cbn. by rewrite list_lookup_middle. }
    assert (S (length done) = length (done ++ [tick_timer p])) as Hlen
      by (rewrite length_app; cbn; lia).
    assert (forall j, j ∈ kept ->
              (done ++ [tick_timer p]) !! j = done !! j) as Hsame.
    { intros j Hj. rewrite Forall_forall in Hkept.
      destruct (Hkept j Hj) as (q & Hq & _).
      by rewrite (lookup_app_l_Some _ _ _ _ Hq). }
    assert (omap (fun j => (done ++ [tick_timer p]) !! j) kept
            = omap (fun j => done !! j) kept) as Homap.
    { clear -Hsame. induction kept as [| j kept IHk]; [done |]. cbn.
      rewrite Hsame by apply list_elem_of_here.
      rewrite IHk; [done |].
      intros j' Hj'. by apply Hsame, list_elem_of_further. }
    rewrite Hat. cbn [from_option fmap list_fmap].
    rewrite filter_cons, Hlen. case_bool_decide as Hout.
    + rewrite list_remove_middle; cycle 1.
      { rewrite Forall_forall in Hkept |- *. intros j Hj.
        destruct (Hkept j Hj) as (q & Hq & Hpos).
        apply bool_decide_eq_false.
        rewrite lookup_app_l, (Hsame j Hj), Hq.
        - intros [= ->]. lia.
        - rewrite <- Hlen. apply lookup_lt_Some in Hq. lia. }
      { by apply bool_decide_eq_true. }
      rewrite decide_False by lia.
      destruct (IH (done ++ [tick_timer p]) kept) as (live & Hloop & Hlive).
      { eapply Forall_impl; [exact Hkept |]. intros j (q & Hq & Hpos).
        exists q. by rewrite (lookup_app_l_Some _ _ _ _ Hq). }
      exists live. rewrite <- !app_assoc in *. cbn in *.
      by rewrite Hloop, Hlive, Homap.
    + rewrite decide_True by lia.
      destruct (IH (done ++ [tick_timer p]) (kept ++ [length done]))
        as (live & Hloop & Hlive).
      { apply Forall_app. split.
        - eapply Forall_impl; [exact Hkept |]. intros j (q & Hq & Hpos).
          exists q. by rewrite (lookup_app_l_Some _ _ _ _ Hq).
        - apply Forall_singleton. exists (tick_timer p).
          rewrite list_lookup_middle by done. split; [done | lia]. }
      exists live. rewrite <- !app_assoc in *. cbn in *.
      rewrite Hloop, Hlive. split; [done |].
      rewrite omap_app, Homap. cbn.
      rewrite list_lookup_middle by done. cbn. by rewrite <- app_assoc.
Qed.

Lemma pickup_loop_returns (power_ups : list PowerUp) (new_head : Cell)
    (score : Z) :
  exists score',
    pickup_loop power_ups new_head power_ups score
    = Returns (filter (fun p => new_head <> pos p) power_ups, score').
Proof. exact (pickup_loop_filter power_ups [] new_head score (Forall_nil_2 _)). Qed.

Lemma update_timers_returns (power_ups : list PowerUp) :
  update_timers power_ups
  = Returns (filter (fun p => 0 < timer p) (tick_timer <$> power_ups)).
Proof.
  unfold update_timers.
  destruct (timer_loop_filter power_ups [] [] (Forall_nil_2 _))
    as (live & Hloop & Hlive).
  cbn in Hloop, Hlive. cbv zeta. by rewrite Hloop; cbn; rewrite Hlive.
Qed.

(** ** Placement *)

Lemma randint_range (a b : Z) (g : Random) :
  a <= b -> a <= (randint a b g).1 <= b.
Proof.
  intros Hab. unfold randint, next_draw. cbn.
  pose proof (Z.mod_pos_bound (tape g (cursor g)) (b - a + 1)). lia.
Qed.

Lemma spawn_food_spec (fuel : nat) (snake : list Cell) (g g' : Random)
    (c : Cell) :
  spawn_food fuel snake g = Returns (c, g') ->
  (c ∉ snake) /\ in_grid c /\ tape g' = tape g.
Proof.
  revert g. induction fuel as [| fuel IH]; intros g; [done |].
  cbn [spawn_food].
  destruct (randint 0 (GRID_WIDTH - 1) g) as [x g1] eqn:Hx.
  destruct (randint 0 (GRID_HEIGHT - 1) g1) as [y g2] eqn:Hy.
  assert (tape g2 = tape g) as Htape.
  { unfold randint, next_draw in Hx, Hy. by simplify_eq/=. }
  case_bool_decide as Hfree.
  - intros [= <- <-]. split; [done |]. split; [| done].
    pose proof (randint_range 0 (GRID_WIDTH - 1) g ltac:(done)) as Hxr.
    pose proof (randint_range 0 (GRID_HEIGHT - 1) g1 ltac:(done)) as Hyr.
    rewrite Hx in Hxr. rewrite Hy in Hyr. unfold in_grid. cbn in *.
    change GRID_WIDTH with 40 in *. change GRID_HEIGHT with 25 in *. lia.
  - intros Hrec. apply IH in Hrec as (? & ? & ->). done.
Qed.

Lemma spawn_power_up_spec (fuel : nat) (snake : list Cell) (food : Cell)
    (g g' : Random) (p : PowerUp) :
  spawn_power_up fuel snake food g = Returns (p, g') ->
  (pos p ∉ snake) /\ pos p <> food /\ in_grid (pos p) /\ timer p = 300 /\
  tape g' = tape g.
Proof.
  revert g. induction fuel as [| fuel IH]; intros g; [done |].
  cbn [spawn_power_up].
  destruct (randint 0 (GRID_WIDTH - 1) g) as [x g1] eqn:Hx.
  destruct (randint 0 (GRID_HEIGHT - 1) g1) as [y g2] eqn:Hy.
  assert (tape g2 = tape g) as Htape.
  { unfold randint, next_draw in Hx, Hy. by simplify_eq/=. }
  destruct (bool_decide ((x, y) ∉ snake) && bool_decide ((x, y) ≠ food))
    eqn:Hfree.
  - apply andb_true_iff in Hfree as [Hs%bool_decide_eq_true Hf%bool_decide_eq_true].
    destruct (choice _ _ g2) as [t g3] eqn:Ht.
    intros [= <- <-]. cbn. repeat split; try done.
    + pose proof (randint_range 0 (GRID_WIDTH - 1) g ltac:(done)) as Hxr.
      rewrite Hx in Hxr. cbn in *. change GRID_WIDTH with 40 in *. lia.
    + pose proof (randint_range 0 (GRID_WIDTH - 1) g ltac:(done)) as Hxr.
      rewrite Hx in Hxr. cbn in *. change GRID_WIDTH with 40 in *. lia.
    + pose proof (randint_range 0 (GRID_HEIGHT - 1) g1 ltac:(done)) as Hyr.
      rewrite Hy in Hyr. cbn in *. change GRID_HEIGHT with 25 in *. lia.
    + pose proof (randint_range 0 (GRID_HEIGHT - 1) g1 ltac:(done)) as Hyr.
      rewrite Hy in Hyr. cbn in *. change GRID_HEIGHT with 25 in *. lia.
    + unfold choice, next_draw in Ht. by simplify_eq/=.
  - intros Hrec. apply IH in Hrec as (? & ? & ? & ? & ->). done.
Qed.

(** C7.  A cell that [spawn_food] returns is not a cell of the snake, and a
    power-up that [spawn_power_up] returns lies neither on the snake nor on
    the food; both lie in the grid. *)
Theorem spawn_avoids_occupied (fuel : nat) (snake : list Cell) (food : Cell)
    (g : Random) :
  (forall c g', spawn_food fuel snake g = Returns (c, g') ->
     (c ∉ snake) /\ in_grid c) /\
  (forall p g', spawn_power_up fuel snake food g = Returns (p, g') ->
     (pos p ∉ snake) /\ pos p <> food /\ in_grid (pos p)).
Proof.
  split.
  - intros c g' Hfood. by apply spawn_food_spec in Hfood as (? & ? & _).
  - intros p g' Hpower.
    by apply spawn_power_up_spec in Hpower as (? & ? & ? & _).
Qed.

Lemma spawn_avoids_occupied_witness :
  (((5, 7) ∉ [(21, 12); (20, 12)]) /\ in_grid (5, 7)) /\
  (((3, 3) ∉ [(21, 12); (20, 12)]) /\ (3, 3) <> (5, 7) /\ in_grid (3, 3)).
Proof.
  destruct (spawn_avoids_occupied 3 [(21, 12); (20, 12)] (5, 7)
              (source [21; 12; 5; 7; 3; 3; 1])) as [Hfood Hpower].
  split.
  - exact (Hfood (5, 7) {| tape := cycle [21; 12; 5; 7; 3; 3; 1]; cursor := 4 |}
                 eq_refl).
  - exact (Hpower {| pos := (3, 3); type := score_multiplier; timer := 300 |}
                  {| tape := cycle [21; 12; 5; 7; 3; 3; 1]; cursor := 7 |}
                  eq_refl).
Defined.

(** ** The tick *)

Lemma update_player_stats_outcome (am : AIGameMaster) (score : Z)
    (game_time : float) (c : DeathCause) (movements : list Direction) :
  match update_player_stats am score game_time c movements with
  | Returns am' =>
      games_played (player_data am') = games_played (player_data am) + 1 /\
      death_causes (player_data am')
      = bump_death c (death_causes (player_data am))
  | Raises e => stats_failure (player_data am) score e
  | OutOfFuel => False
  end.
Proof.
  unfold update_player_stats, div_int, of_int, stats_failure.
  replace (games_played (player_data am) + 1 - 1)
    with (games_played (player_data am)) by lia.
  destruct (floatable (games_played (player_data am))); cbn; [| by auto].
  destruct (floatable score); cbn; [| by auto].
  destruct (floatable (games_played (player_data am) + 1)); cbn; [| by auto].
  destruct (Z.eqb_spec (games_played (player_data am) + 1) 0) as [Hz | Hnz];
    cbn; [right; split_and!; [done | lia | done] | done].
Qed.

Lemma update_player_stats_returns (am am' : AIGameMaster) (score : Z)
    (game_time : float) (c : DeathCause) (movements : list Direction) :
  update_player_stats am score game_time c movements = Returns am' ->
  let old := movement_patterns (player_data am) in
  movement_patterns (player_data am')
  = (if (50 <=? length old)%nat then drop 1 old else old)
    ++ [last_n 20 movements] /\
  preferred_directions (player_data am')
  = fold_left bump_direction movements
              (preferred_directions (player_data am)) /\
  games_played (player_data am') = games_played (player_data am) + 1 /\
  death_causes (player_data am')
  = bump_death c (death_causes (player_data am)) /\
  skill_level (player_data am') = skill_level (player_data am) /\
  reaction_times (player_data am') = reaction_times (player_data am) /\
  base_speed am' = base_speed am /\ current_speed am' = current_speed am /\
  power_up_frequency am' = power_up_frequency am.
Proof.
  unfold update_player_stats, div_int, of_int.
  destruct (floatable (games_played (player_data am) + 1 - 1));
    cbn [mbind outcome_bind]; [| done].
  destruct (floatable score); cbn [mbind outcome_bind]; [| done].
  destruct (floatable (games_played (player_data am) + 1));
    cbn [mbind outcome_bind]; [| done].
  destruct (games_played (player_data am) + 1 =? 0); [done |].
  cbn [mbind outcome_bind]. intros [= <-]. cbv zeta.
  cbn [player_data movement_patterns preferred_directions games_played
       death_causes skill_level reaction_times base_speed current_speed
       power_up_frequency].
  split_and!; try done.
  rewrite length_app. cbn [length].
  destruct (movement_patterns (player_data am)) as [| p ps] eqn:Hps.
  - done.
  - cbn [length app drop].
    destruct (Nat.ltb_spec 50 (S (length ps) + 1)),
      (Nat.leb_spec 50 (S (length ps))); try lia; done.
Qed.

(** [stats_failure] is exact. *)
Lemma update_player_stats_raises (am : AIGameMaster) (score : Z)
    (game_time : float) (c : DeathCause) (movements : list Direction)
    (e : exn) :
  update_player_stats am score game_time c movements = Raises e
  <-> stats_failure (player_data am) score e.
Proof.
  split.
  - intros Hraise.
    pose proof (update_player_stats_outcome am score game_time c movements)
      as Hout.
    by rewrite Hraise in Hout.
  - unfold stats_failure, update_player_stats, div_int, of_int.
    replace (games_played (player_data am) + 1 - 1)
      with (games_played (player_data am)) by lia.
    intros [(-> & Hover) | (-> & Hgames & Hscore)].
    + destruct (floatable (games_played (player_data am))); cbn; [| done].
      destruct (floatable score); cbn; [| done].
      destruct (floatable (games_played (player_data am) + 1)); cbn;
        [| done].
      by destruct Hover as [| [|]].
    + by rewrite Hgames, Hscore.
Qed.

Lemma update_player_stats_recordable (am : AIGameMaster) (score : Z)
    (game_time : float) (c : DeathCause) (movements : list Direction) :
  recordable (player_data am) score ->
  exists am', update_player_stats am score game_time c movements = Returns am'.
Proof.
  intros (Hgames & Hearlier & Hscore & Hnow).
  pose proof (update_player_stats_outcome am score game_time c movements) as H.
  destruct (update_player_stats _ _ _ _ _) as [am' | e |]; [by eexists | | done].
  destruct H as [(_ & [H | [H | H]]) | (_ & H & _)]; congruence.
Qed.

(** A tick on which a collision is found: the statistics are updated and
    nothing of the session changes but [game_over] and the prediction. *)
Lemma update_game_death (fuel : nat) (t_adapt t_death : float) (s : Game)
    (g : Random) (h : Cell) (c : DeathCause) :
  paused s = false -> game_over s = false ->
  new_head s = Some h -> collision h (snake s) = Some c ->
  update_game fuel t_adapt t_death s g
  = (am' ← update_player_stats
             (adapt_difficulty (ai_master s) (score s) t_adapt)
             (score s) t_death c (movement_history s);
     Returns ({| ai_master := am';
                 snake := snake s;
                 direction := direction s;
                 last_direction := last_direction s;
                 food := food s;
                 power_ups := power_ups s;
                 score := score s;
                 game_over := true;
                 paused := paused s;
                 movement_history := movement_history s;
                 ai_prediction :=
                   predict_next_move
                     (adapt_difficulty (ai_master s) (score s) t_adapt)
                     (default (0, 0) (head (snake s))) (last_direction s);
                 show_ai_hints := show_ai_hints s |}, g)).
Proof.
  intros Hrun Hlive Hhead Hdeath. unfold update_game, new_head in *.
  rewrite Hrun, Hlive. cbn [orb].
  destruct (snake s) as [| head body]; [done |].
  injection Hhead as <-. by rewrite Hdeath.
Qed.

(** A tick on which no collision is found, once the food test has left
    [snake'], [food'], [power_ups'] and [score']: the power-ups that stay
    are those off the new head, their timers one less and still positive. *)
Lemma update_game_alive (fuel : nat) (t_adapt t_death : float) (s : Game)
    (g : Random) (h : Cell) :
  paused s = false -> game_over s = false ->
  new_head s = Some h -> collision h (snake s) = None ->
  match food_branch fuel (adapt_difficulty (ai_master s) (score s) t_adapt)
          h (h :: snake s) (food s) (power_ups s) (score s) g with
  | Returns (snake', food', power_ups', score', g') =>
      exists s',
        update_game fuel t_adapt t_death s g = Returns (s', g') /\
        snake s' = snake' /\ food s' = food' /\
        power_ups s'
        = filter (fun p => 0 < timer p)
            (tick_timer <$> filter (fun p => h <> pos p) power_ups') /\
        game_over s' = false
  | Raises e => update_game fuel t_adapt t_death s g = Raises e
  | OutOfFuel => update_game fuel t_adapt t_death s g = OutOfFuel
  end.
Proof.
  intros Hrun Hlive Hhead Halive. unfold update_game, new_head in *.
  rewrite Hrun, Hlive. cbn [orb].
  destruct (snake s) as [| head body]; [done |].
  injection Hhead as <-. rewrite Halive.
  destruct (food_branch _ _ _ _ _ _ _ _)
    as [[[[[snake' food'] power_ups'] score'] g'] | e |]; cbn; [| done..].
  destruct (pickup_loop_returns power_ups' (step (direction s) head) score')
    as [score'' ->].
  cbn. rewrite update_timers_returns. cbn. eexists. split; [done |]. done.
Qed.

Lemma food_branch_no_food (fuel : nat) (am : AIGameMaster) (h : Cell)
    (snake : list Cell) (food : Cell) (power_ups : list PowerUp) (score : Z)
    (g : Random) :
  h <> food ->
  food_branch fuel am h snake food power_ups score g
  = Returns (removelast snake, food, power_ups, score, g).
Proof. intros Hne. unfold food_branch. by rewrite bool_decide_eq_false_2. Qed.

Lemma should_spawn_power_up_tape (am : AIGameMaster) (score len : Z)
    (g : Random) :
  tape (should_spawn_power_up am score len g).2 = tape g /\
  cursor (should_spawn_power_up am score len g).2 = S (cursor g).
Proof. unfold should_spawn_power_up, random, next_draw. by case_match. Qed.

(** C1.  On a tick whose new head lies in the grid, the self check looks
    the new head up in the snake as it stands before anything is removed:
    if the new head is any cell of that snake, the tail included, the death
    cause is [self] and the tick ends with [game_over] set and the death
    counted.  (The statistics update raises instead on the profiles and
    scores of [stats_failure]: a count of games of -1, an integer beyond
    the float range.) *)
Theorem self_collision_on_pre_move_snake (fuel : nat)
    (t_adapt t_death : float) (s : Game) (g : Random) (h : Cell)
    (Hrun : paused s = false) (Hlive : game_over s = false)
    (Hhead : new_head s = Some h) (Hwall : in_grid h)
    (Hself : h ∈ snake s) :
  collision h (snake s) = Some self /\
  match update_game fuel t_adapt t_death s g with
  | Returns (s', _) =>
      game_over s' = true /\ snake s' = snake s /\
      dc_self (death_causes (player_data (ai_master s')))
      = dc_self (death_causes (player_data (ai_master s))) + 1
  | Raises e => stats_failure (player_data (ai_master s)) (score s) e
  | OutOfFuel => False
  end.
Proof.
  assert (collision h (snake s) = Some self) as Hdeath.
  { destruct h as [x y], Hwall as [Hx Hy]. cbn in Hx, Hy. unfold collision.
    destruct (Z.ltb_spec x 0); [lia |].
    destruct (Z.leb_spec GRID_WIDTH x); [lia |].
    destruct (Z.ltb_spec y 0); [lia |].
    destruct (Z.leb_spec GRID_HEIGHT y); [lia |].
    cbn [orb]. by rewrite bool_decide_eq_true_2. }
  split; [done |].
  rewrite (update_game_death fuel t_adapt t_death s g h self) by done.
  pose proof (update_player_stats_outcome
                (adapt_difficulty (ai_master s) (score s) t_adapt)
                (score s) t_death self (movement_history s)) as Hstats.
  destruct (update_player_stats _ _ _ _ _) as [am' | e |]; cbn; [| done..].
  destruct Hstats as [_ ->]. done.
Qed.

(** The head of [curled] turns into the cell that its tail would leave on
    this very tick. *)
Lemma self_collision_on_pre_move_snake_witness :
  last (snake curled) = Some (5, 6) /\
  collision (5, 6) (snake curled) = Some self /\
  match update_game 0 zero (nearest 9) curled (source [0]) with
  | Returns (s', _) =>
      game_over s' = true /\ snake s' = snake curled /\
      dc_self (death_causes (player_data (ai_master s')))
      = dc_self (death_causes (player_data (ai_master curled))) + 1
  | Raises e =>
      stats_failure (player_data (ai_master curled)) (score curled) e
  | OutOfFuel => False
  end.
Proof.
  split; [reflexivity |].
  apply (self_collision_on_pre_move_snake 0 zero (nearest 9) curled
           (source [0]) (5, 6)); try reflexivity.
  - vm_compute. repeat split; congruence.
  - apply (bool_decide_unpack _). vm_compute. exact I.
Defined.

(** C9, as the code has it.  A tick on which a death cause is found
    returns the session with its snake, food, score and power-ups (timers
    included) as they were, its directions, move log, pause and hint flags
    too, and with [game_over] set; no draw is taken from the random source.
    The game master is the one that the statistics update makes of the
    master that [adapt_difficulty] has just set for the score of the
    session: its tier, base speed, speed and power-up frequency are those
    of this adaptation, which runs before the collision test, as does the
    prediction that the session is left with.  (The statistics update
    raises instead on the profiles and scores of [stats_failure].) *)
Theorem death_tick_leaves_session (fuel : nat) (t_adapt t_death : float)
    (s : Game) (g : Random) (h : Cell) (c : DeathCause)
    (Hrun : paused s = false) (Hlive : game_over s = false)
    (Hhead : new_head s = Some h)
    (Hdeath : collision h (snake s) = Some c) :
  match update_game fuel t_adapt t_death s g with
  | Returns (s', g') =>
      let adapted := adapt_difficulty (ai_master s) (score s) t_adapt in
      snake s' = snake s /\ food s' = food s /\ score s' = score s /\
      power_ups s' = power_ups s /\
      direction s' = direction s /\ last_direction s' = last_direction s /\
      movement_history s' = movement_history s /\ paused s' = paused s /\
      show_ai_hints s' = show_ai_hints s /\
      game_over s' = true /\ g' = g /\
      update_player_stats adapted (score s) t_death c (movement_history s)
      = Returns (ai_master s') /\
      skill_level (player_data (ai_master s'))
      = analyze_skill_level (player_data (ai_master s)) /\
      base_speed (ai_master s') = base_speed adapted /\
      current_speed (ai_master s') = current_speed adapted /\
      power_up_frequency (ai_master s') = power_up_frequency adapted /\
      ai_prediction s'
      = predict_next_move adapted (default (0, 0) (head (snake s)))
                          (last_direction s)
  | Raises e => stats_failure (player_data (ai_master s)) (score s) e
  | OutOfFuel => False
  end.
Proof.
  rewrite (update_game_death fuel t_adapt t_death s g h c) by done.
  pose proof (update_player_stats_outcome
                (adapt_difficulty (ai_master s) (score s) t_adapt)
                (score s) t_death c (movement_history s)) as Hstats.
  destruct (update_player_stats _ _ _ _ _) as [am' | e |] eqn:Hupd;
    cbn [mbind outcome_bind]; [| done..].
  destruct (update_player_stats_returns _ _ _ _ _ _ Hupd)
    as (_ & _ & _ & _ & Hskill & _ & Hbase & Hspeed & Hfrequency).
  cbv zeta. cbn [snake food score power_ups direction last_direction
                 movement_history paused show_ai_hints game_over ai_master
                 ai_prediction].
  split_and!; done.
Qed.

(** A snake at the right-hand wall and heading for it. *)
Lemma death_tick_leaves_session_witness :
  match update_game 0 zero (nearest 9) at_wall (source [0]) with
  | Returns (s', g') =>
      let adapted :=
        adapt_difficulty (ai_master at_wall) (score at_wall) zero in
      snake s' = snake at_wall /\ food s' = food at_wall /\
      score s' = score at_wall /\ power_ups s' = power_ups at_wall /\
      direction s' = direction at_wall /\
      last_direction s' = last_direction at_wall /\
      movement_history s' = movement_history at_wall /\
      paused s' = paused at_wall /\
      show_ai_hints s' = show_ai_hints at_wall /\
      game_over s' = true /\ g' = source [0] /\
      update_player_stats adapted (score at_wall) (nearest 9) wall
                          (movement_history at_wall)
      = Returns (ai_master s') /\
      skill_level (player_data (ai_master s'))
      = analyze_skill_level (player_data (ai_master at_wall)) /\
      base_speed (ai_master s') = base_speed adapted /\
      current_speed (ai_master s') = current_speed adapted /\
      power_up_frequency (ai_master s') = power_up_frequency adapted /\
      ai_prediction s'
      = predict_next_move adapted (default (0, 0) (head (snake at_wall)))
                          (last_direction at_wall)
  | Raises e =>
      stats_failure (player_data (ai_master at_wall)) (score at_wall) e
  | OutOfFuel => False
  end.
Proof.
  apply (death_tick_leaves_session 0 zero (nearest 9) at_wall (source [0])
           (40, 3) wall); reflexivity.
Defined.

(** A first game on the draws 21, 12, 5, 7, 0, 3, 3, 1: the snake eats the
    food in front of it at the speed 8 set for a score of 0, and the keys
    up and left of the next frame turn it back on its neck.  The tick of
    that frame finds the death, and leaves the speed at the 11 that the
    adaptation gives for the score of 10. *)
Lemma death_tick_changes_speed :
  new_RetroSnakeGame 1 default_player_data
                     (source [21; 12; 5; 7; 0; 3; 3; 1])
  = Returns (opening, {| tape := cycle [21; 12; 5; 7; 0; 3; 3; 1];
                         cursor := 2 |}) /\
  ('(_, s, g) ← frame 2 {| events := []; t_adapt := zero; t_death := zero |}
                 opening {| tape := cycle [21; 12; 5; 7; 0; 3; 3; 1];
                            cursor := 2 |};
   handle_input 2 [KEYDOWN K_UP; KEYDOWN K_LEFT] s g)
  = Returns (true, turned_back,
             {| tape := cycle [21; 12; 5; 7; 0; 3; 3; 1]; cursor := 8 |}) /\
  new_head turned_back = Some (20, 12) /\
  collision (20, 12) (snake turned_back) = Some self /\
  current_speed (ai_master turned_back) = 8 /\
  match update_game 2 (nearest 1) (nearest 1) turned_back
          {| tape := cycle [21; 12; 5; 7; 0; 3; 3; 1]; cursor := 8 |} with
  | Returns (s', _) =>
      game_over s' = true /\ snake s' = snake turned_back /\
      games_played (player_data (ai_master s')) = 1 /\
      current_speed (ai_master s') = 11
  | _ => False
  end.
Proof. vm_compute. split_and!; reflexivity. Qed.

Lemma power_ups_after_passes (h : Cell) (power_ups : list PowerUp) :
  (pos <$> filter (fun p => 0 < timer p)
             (tick_timer <$> filter (fun p => h <> pos p) power_ups))
  `sublist_of` (pos <$> power_ups).
Proof.
  transitivity (pos <$> (tick_timer <$> filter (fun p => h <> pos p) power_ups)).
  - apply fmap_sublist, sublist_filter.
  - rewrite <- list_fmap_compose.
    rewrite (list_fmap_ext (pos ∘ tick_timer) pos) by done.
    apply fmap_sublist, sublist_filter.
Qed.

(** What the food test can leave behind. *)
Lemma food_branch_spec (fuel : nat) (am : AIGameMaster) (h : Cell)
    (snake snake' : list Cell) (food food' : Cell)
    (power_ups power_ups' : list PowerUp) (score score' : Z)
    (g g' : Random) :
  food_branch fuel am h snake food power_ups score g
  = Returns (snake', food', power_ups', score', g') ->
  exists added,
    power_ups' = power_ups ++ added /\ (length added <= 1)%nat /\
    tape g' = tape g /\
    (h <> food ->
       added = [] /\ g' = g /\ snake' = removelast snake /\ food' = food /\
       score' = score) /\
    (h = food ->
       snake' = snake /\ (food' ∉ snake) /\ score' = score + 10 /\
       Forall (fun p => (pos p ∉ snake) /\ pos p <> food') added).
Proof.
  unfold food_branch. case_bool_decide as Hfood.
  - destruct (spawn_food fuel snake g) as [[f g1] | e |] eqn:Hspawn;
      cbn; [| done..].
    apply spawn_food_spec in Hspawn as (Hf & _ & Htape1).
    pose proof (should_spawn_power_up_tape am (score + 10)
                  (Z.of_nat (length snake)) g1) as [Htape2 _].
    destruct (should_spawn_power_up _ _ _ g1) as [[] g2]; cbn in Htape2.
    + destruct (spawn_power_up fuel snake f g2) as [[p g3] | e |] eqn:Hpower;
        cbn; [| done..].
      apply spawn_power_up_spec in Hpower as (Hp1 & Hp2 & _ & _ & Htape3).
      intros [= <- <- <- <- <-]. exists [p].
      repeat split; try done; try congruence; try (cbn; lia).
      by apply Forall_singleton.
    + intros [= <- <- <- <- <-]. exists []. rewrite app_nil_r.
      repeat split; try done; try congruence; cbn; lia.
  - intros [= <- <- <- <- <-]. exists []. rewrite app_nil_r.
    repeat split; try done; cbn; lia.
Qed.

(** A tick of [curled_free]: the snake moves a cell down, the power-up
    loses a tick, and the source is left alone. *)
Example update_game_curled_free :
  update_game 0 zero zero curled_free (source [0])
  = Returns ({| ai_master := adapt_difficulty (ai_master curled_free) 30 zero;
                snake := [(6, 7); (6, 6); (6, 5); (5, 5)];
                direction := Down;
                last_direction := Down;
                food := (30, 20);
                power_ups :=
                  [ {| pos := (10, 10); type := invincible; timer := 119 |} ];
                score := 30;
                game_over := false;
                paused := false;
                movement_history := [Up; Right; Down];
                ai_prediction := None;
                show_ai_hints := true |}, source [0]).
Proof. reflexivity. Qed.

(** The first tick of [opening] when the source draws 5, 7 for the food,
    then a value under the spawn threshold, then 3, 3 and the second kind
    for the power-up. *)
Example update_game_opening :
  update_game 2 zero zero opening (source [5; 7; 0; 3; 3; 1])
  = Returns ({| ai_master := adapt_difficulty (ai_master opening) 0 zero;
                snake := [(21, 12); (20, 12)];
                direction := Right;
                last_direction := Right;
                food := (5, 7);
                power_ups :=
                  [ {| pos := (3, 3); type := score_multiplier;
                       timer := 299 |} ];
                score := 10;
                game_over := false;
                paused := false;
                movement_history := [];
                ai_prediction := None;
                show_ai_hints := true |},
             {| tape := cycle [5; 7; 0; 3; 3; 1]; cursor := 6 |}).
Proof. reflexivity. Qed.

Lemma spawn_food_never_raises (fuel : nat) (snake : list Cell) (g : Random)
    (e : exn) :
  spawn_food fuel snake g <> Raises e.
Proof.
  revert g. induction fuel as [| fuel IH]; intros g; [done |].
  cbn [spawn_food]. repeat case_match; [done | apply IH].
Qed.

Lemma spawn_power_up_never_raises (fuel : nat) (snake : list Cell)
    (food : Cell) (g : Random) (e : exn) :
  spawn_power_up fuel snake food g <> Raises e.
Proof.
  revert g. induction fuel as [| fuel IH]; intros g; [done |].
  cbn [spawn_power_up]. repeat case_match; [done | apply IH].
Qed.

Lemma food_branch_never_raises (fuel : nat) (am : AIGameMaster) (h : Cell)
    (snake : list Cell) (food : Cell) (power_ups : list PowerUp) (score : Z)
    (g : Random) (e : exn) :
  food_branch fuel am h snake food power_ups score g <> Raises e.
Proof.
  unfold food_branch. case_bool_decide; [| done].
  pose proof (spawn_food_never_raises fuel snake g) as Hfood.
  destruct (spawn_food fuel snake g) as [[f g1] | e' |]; cbn;
    [| by destruct (Hfood e') | done].
  destruct (should_spawn_power_up _ _ _ g1) as [[] g2]; [| done].
  pose proof (spawn_power_up_never_raises fuel snake f g2) as Hpower.
  destruct (spawn_power_up fuel snake f g2) as [[p g3] | e' |]; cbn;
    [done | by destruct (Hpower e') | done].
Qed.

Local Ltac nothing_added :=
  exists []; rewrite app_nil_r;
  split; [cbn; lia | split; [done | reflexivity]].


(** ** Termination of the placement loops *)

Lemma candidate_skip (g : Random) (k : nat) :
  candidate (skip 2 g) k = candidate g (S k).
Proof.
  unfold candidate, skip, randint, next_draw. cbn [tape cursor].
  replace (2 * k + (2 + cursor g))%nat with (2 * S k + cursor g)%nat by lia.
  done.
Qed.

Lemma spawn_food_step (fuel : nat) (snake : list Cell) (g : Random) :
  spawn_food (S fuel) snake g
  = if bool_decide (candidate g 0 ∉ snake)
    then Returns (candidate g 0, skip 2 g)
    else spawn_food fuel snake (skip 2 g).
Proof. done. Qed.

Lemma spawn_power_up_step (fuel : nat) (snake : list Cell) (food : Cell)
    (g : Random) :
  spawn_power_up (S fuel) snake food g
  = if bool_decide (candidate g 0 ∉ snake)
       && bool_decide (candidate g 0 ≠ food)
    then
      let '(t, g') := choice speed_boost [score_multiplier; invincible]
                             (skip 2 g) in
      Returns ({| pos := candidate g 0; type := t; timer := 300 |}, g')
    else spawn_power_up fuel snake food (skip 2 g).
Proof. done. Qed.

(** A source that only draws occupied cells keeps [spawn_food] going. *)
Lemma spawn_food_stuck (snake : list Cell) (g : Random) :
  (forall k, candidate g k ∈ snake) ->
  forall fuel, spawn_food fuel snake g = OutOfFuel.
Proof.
  intros Hall fuel. revert g Hall.
  induction fuel as [| fuel IH]; intros g Hall; [done |].
  rewrite spawn_food_step, bool_decide_eq_false_2.
  - apply IH. intros k. rewrite candidate_skip. apply Hall.
  - intros Hout. apply Hout, Hall.
Qed.

(** [spawn_food] returns at the first free cell drawn, whatever fuel is
    left over. *)
Lemma spawn_food_returns (snake : list Cell) (g : Random) (k : nat) :
  candidate g k ∉ snake ->
  exists c g',
    tape g' = tape g /\
    forall fuel, (k < fuel)%nat -> spawn_food fuel snake g = Returns (c, g').
Proof.
  revert g. induction k as [| k IH]; intros g Hfree.
  - exists (candidate g 0), (skip 2 g). split; [done |].
    intros [| fuel] Hfuel; [lia |].
    by rewrite spawn_food_step, bool_decide_eq_true_2.
  - destruct (decide (candidate g 0 ∉ snake)) as [Hfirst | Hfirst].
    + exists (candidate g 0), (skip 2 g). split; [done |].
      intros [| fuel] Hfuel; [lia |].
      by rewrite spawn_food_step, bool_decide_eq_true_2.
    + rewrite <- candidate_skip in Hfree.
      destruct (IH _ Hfree) as (c & g' & Htape & Hret).
      exists c, g'. split; [done |].
      intros [| fuel] Hfuel; [lia |].
      rewrite spawn_food_step, bool_decide_eq_false_2 by done.
      apply Hret. lia.
Qed.

Lemma spawn_power_up_returns (snake : list Cell) (food : Cell) (g : Random)
    (k : nat) :
  candidate g k ∉ food :: snake ->
  exists p g',
    forall fuel, (k < fuel)%nat ->
      spawn_power_up fuel snake food g = Returns (p, g').
Proof.
  revert g. induction k as [| k IH]; intros g Hfree.
  - apply not_elem_of_cons in Hfree as [Hfood Hsnake].
    destruct (choice speed_boost [score_multiplier; invincible] (skip 2 g))
      as [t g'] eqn:Ht.
    exists {| pos := candidate g 0; type := t; timer := 300 |}, g'.
    intros [| fuel] Hfuel; [lia |].
    rewrite spawn_power_up_step, !bool_decide_eq_true_2 by done.
    cbn [andb]. by rewrite Ht.
  - destruct (bool_decide (candidate g 0 ∉ snake)
              && bool_decide (candidate g 0 ≠ food)) eqn:Hfirst.
    + destruct (choice speed_boost [score_multiplier; invincible] (skip 2 g))
        as [t g'] eqn:Ht.
      exists {| pos := candidate g 0; type := t; timer := 300 |}, g'.
      intros [| fuel] Hfuel; [lia |].
      rewrite spawn_power_up_step, Hfirst. by rewrite Ht.
    + rewrite <- candidate_skip in Hfree.
      destruct (IH _ Hfree) as (p & g' & Hret).
      exists p, g'. intros [| fuel] Hfuel; [lia |].
      rewrite spawn_power_up_step, Hfirst. apply Hret. lia.
Qed.

Lemma candidate_in_grid (g : Random) (k : nat) : in_grid (candidate g k).
Proof.
  unfold candidate, randint, next_draw, skip, in_grid. cbn [tape cursor fst snd].
  change (GRID_WIDTH - 1 - 0 + 1) with 40.
  change (GRID_HEIGHT - 1 - 0 + 1) with 25.
  change GRID_WIDTH with 40. change GRID_HEIGHT with 25.
  pose proof (Z.mod_pos_bound (tape g (2 * k + cursor g)%nat) 40).
  pose proof (Z.mod_pos_bound (tape g (S (2 * k + cursor g))) 25).
  lia.
Qed.

(** With the grid full, snake and food together, no source lets
    [spawn_power_up] return; nor [spawn_food] when the snake alone fills
    the grid. *)
Lemma spawn_power_up_no_room (snake : list Cell) (food : Cell) :
  (forall c, in_grid c -> c ∈ food :: snake) ->
  forall fuel g, spawn_power_up fuel snake food g = OutOfFuel.
Proof.
  intros Hfull fuel. induction fuel as [| fuel IH]; intros g; [done |].
  rewrite spawn_power_up_step.
  pose proof (Hfull _ (candidate_in_grid g 0)) as Hin.
  apply elem_of_cons in Hin as [Hfood | Hsnake].
  - rewrite (bool_decide_eq_false_2 (candidate g 0 ≠ food)) by auto.
    rewrite andb_false_r. apply IH.
  - rewrite (bool_decide_eq_false_2 (candidate g 0 ∉ snake)) by auto.
    apply IH.
Qed.

Lemma spawn_food_no_room (snake : list Cell) :
  (forall c, in_grid c -> c ∈ snake) ->
  forall fuel g, spawn_food fuel snake g = OutOfFuel.
Proof.
  intros Hfull fuel g. apply spawn_food_stuck.
  intros k. apply Hfull, candidate_in_grid.
Qed.

Lemma candidate_cycle (xs : list Z) (c k : nat) :
  candidate {| tape := cycle xs; cursor := c |} k
  = (cycle xs (2 * k + c) mod 40, cycle xs (S (2 * k + c)) mod 25).
Proof. reflexivity. Qed.

(** The tape 0, 0, 1, 1, ... is fair to any set of cells that has none of
    the four cells around the origin. *)
Lemma fair_cycle_0011 (occupied : list Cell) :
  (0, 0) ∉ occupied -> (0, 1) ∉ occupied ->
  (1, 0) ∉ occupied -> (1, 1) ∉ occupied ->
  fair (cycle [0; 0; 1; 1]) occupied.
Proof.
  intros H00 H01 H10 H11 c f.
  assert (exists q r, c = (r + q * 4)%nat /\ (r < 4)%nat) as (q & r & -> & Hr).
  { exists (c / 4)%nat, (c mod 4)%nat.
    pose proof (Nat.Div0.div_mod c 4). pose proof (Nat.mod_upper_bound c 4).
    lia. }
  assert (forall k a b,
            cycle [0; 0; 1; 1] ((2 * k + r) mod 4) = a ->
            cycle [0; 0; 1; 1] ((S (2 * k + r)) mod 4) = b ->
            candidate {| tape := cycle [0; 0; 1; 1];
                         cursor := (r + q * 4)%nat |} k
            = (a mod 40, b mod 25)) as Hcand.
  { intros k a b <- <-. rewrite candidate_cycle. unfold cycle. cbn [length].
    rewrite !Nat.Div0.mod_mod.
    replace (2 * k + (r + q * 4))%nat with (2 * k + r + q * 4)%nat by lia.
    replace (S (2 * k + r + q * 4)) with (S (2 * k + r) + q * 4)%nat by lia.
    by rewrite !Nat.Div0.mod_add. }
  assert (exists a0 b0 a1 b1,
            candidate {| tape := cycle [0; 0; 1; 1];
                         cursor := (r + q * 4)%nat |} 0 = (a0, b0) /\
            candidate {| tape := cycle [0; 0; 1; 1];
                         cursor := (r + q * 4)%nat |} 1 = (a1, b1) /\
            a0 <> a1 /\ ((a0, b0) ∉ occupied) /\ ((a1, b1) ∉ occupied))
    as (a0 & b0 & a1 & b1 & H0 & H1 & Hne & Hf0 & Hf1).
  { destruct r as [| [| [| [| r]]]]; [| | | | lia].
    - exists 0, 0, 1, 1.
      by rewrite (Hcand 0%nat 0 0), (Hcand 1%nat 1 1).
    - exists 0, 1, 1, 0.
      by rewrite (Hcand 0%nat 0 1), (Hcand 1%nat 1 0).
    - exists 1, 1, 0, 0.
      by rewrite (Hcand 0%nat 1 1), (Hcand 1%nat 0 0).
    - exists 1, 0, 0, 1.
      by rewrite (Hcand 0%nat 1 0), (Hcand 1%nat 0 1). }
  destruct (decide (f = (a0, b0))) as [-> | Hf].
  - exists 1%nat. rewrite H1. apply not_elem_of_cons. split; [congruence | done].
  - exists 0%nat. rewrite H0. apply not_elem_of_cons. split; [congruence | done].
Qed.

Lemma food_branch_eats (fuel : nat) (am : AIGameMaster) (snake : list Cell)
    (food f : Cell) (power_ups : list PowerUp) (score : Z) (g g1 : Random) :
  spawn_food fuel snake g = Returns (f, g1) ->
  food_branch fuel am food snake food power_ups score g
  = let '(spawn, g2) :=
      should_spawn_power_up am (score + 10) (Z.of_nat (length snake)) g1 in
    if spawn then
      '(power_up, g3) ← spawn_power_up fuel snake f g2;
      Returns (snake, f, power_ups ++ [power_up], score + 10, g3)
    else Returns (snake, f, power_ups, score + 10, g2).
Proof.
  intros Hfood. unfold food_branch.
  rewrite bool_decide_eq_true_2 by done. by rewrite Hfood.
Qed.

(** The fuel matters to a tick through the food test alone. *)
Lemma update_game_fuel (fuel fuel' : nat) (t_adapt t_death : float)
    (s : Game) (g : Random) (h : Cell) :
  new_head s = Some h ->
  food_branch fuel (adapt_difficulty (ai_master s) (score s) t_adapt)
              h (h :: snake s) (food s) (power_ups s) (score s) g
  = food_branch fuel' (adapt_difficulty (ai_master s) (score s) t_adapt)
                h (h :: snake s) (food s) (power_ups s) (score s) g ->
  update_game fuel t_adapt t_death s g = update_game fuel' t_adapt t_death s g.
Proof.
  intros Hhead Hbranch. unfold update_game, new_head in *.
  destruct (paused s || game_over s); [done |].
  destruct (snake s) as [| head body]; [done |].
  injection Hhead as <-.
  destruct (collision _ _); [done |]. by rewrite Hbranch.
Qed.

Lemma in_grid_cells (c : Cell) : in_grid c -> c ∈ grid_cells.
Proof.
  destruct c as [x y]. intros [Hx Hy]. cbn [fst snd] in Hx, Hy.
  unfold grid_cells.
  change GRID_WIDTH with 40 in *. change GRID_HEIGHT with 25 in *.
  apply list_elem_of_bind. exists x. split.
  - apply list_elem_of_bind. exists y. split; [apply list_elem_of_here |].
    apply elem_of_seqZ. lia.
  - apply elem_of_seqZ. lia.
Qed.

(** Whether a list of cells covers the grid is a matter of computation. *)
Lemma covers_grid (l : list Cell) :
  bool_decide (Forall (fun c => c ∈ l) grid_cells) = true ->
  forall c, in_grid c -> c ∈ l.
Proof.
  intros Hall%bool_decide_eq_true c Hc.
  rewrite Forall_forall in Hall. apply Hall, in_grid_cells, Hc.
Qed.

(** Once the snake has eaten the food on the last cell it had left free,
    the search for the next food cell never ends, whatever is drawn. *)
Lemma update_game_no_room_for_food (s : Game) :
  paused s = false -> game_over s = false ->
  new_head s = Some (food s) -> collision (food s) (snake s) = None ->
  (forall c, in_grid c -> c ∈ food s :: snake s) ->
  forall fuel t_adapt t_death g,
    update_game fuel t_adapt t_death s g = OutOfFuel.
Proof.
  intros Hrun Hlive Hhead Hcol Hfull fuel t_adapt t_death g.
  pose proof (update_game_alive fuel t_adapt t_death s g (food s)
                Hrun Hlive Hhead Hcol) as Halive.
  unfold food_branch in Halive.
  rewrite bool_decide_eq_true_2 in Halive by done.
  by rewrite spawn_food_no_room in Halive.
Qed.

(** With one cell [f] left free beside the food, the snake eats, the food
    goes to [f] as soon as it is drawn, and a decision to spawn a power-up
    starts a search that never ends, whatever is drawn. *)
Lemma update_game_no_room_for_power_up (s : Game) (f : Cell) :
  paused s = false -> game_over s = false ->
  new_head s = Some (food s) -> collision (food s) (snake s) = None ->
  f ∉ food s :: snake s ->
  (forall c, in_grid c -> c ∈ f :: food s :: snake s) ->
  forall fuel t_adapt t_death g,
    candidate g 0 = f ->
    (should_spawn_power_up
       (adapt_difficulty (ai_master s) (score s) t_adapt) (score s + 10)
       (Z.of_nat (length (food s :: snake s))) (skip 2 g)).1 = true ->
    update_game fuel t_adapt t_death s g = OutOfFuel.
Proof.
  intros Hrun Hlive Hhead Hcol Hfree Hfull fuel t_adapt t_death g Hdraw Hspawn.
  pose proof (update_game_alive fuel t_adapt t_death s g (food s)
                Hrun Hlive Hhead Hcol) as Halive.
  destruct fuel as [| fuel].
  { unfold food_branch in Halive.
    by rewrite bool_decide_eq_true_2 in Halive. }
  rewrite (food_branch_eats _ _ _ _ f _ _ g (skip 2 g)) in Halive; cycle 1.
  { rewrite spawn_food_step, Hdraw. by rewrite bool_decide_eq_true_2. }
  destruct (should_spawn_power_up _ _ _ (skip 2 g)) as [spawn g2].
  cbn [fst] in Hspawn. subst spawn.
  by rewrite spawn_power_up_no_room in Halive.
Qed.




(** * Further properties *)

(** ** Collisions *)

(** X1.  The collision test answers [wall] exactly for a new head outside
    the grid, [self] exactly for one in the grid and on the snake, and
    nothing exactly for one in the grid and off the snake: a head that is
    both outside the grid and on a cell listed in the snake is a wall
    death. *)
Theorem collision_cases (h : Cell) (snake : list Cell) :
  (collision h snake = Some wall <-> ~ in_grid h) /\
  (collision h snake = Some self <-> in_grid h /\ h ∈ snake) /\
  (collision h snake = None <-> in_grid h /\ h ∉ snake).
Proof.
  destruct h as [x y]. unfold collision, in_grid. cbn [fst snd].
  change GRID_WIDTH with 40. change GRID_HEIGHT with 25.
  destruct (Z.ltb_spec x 0), (Z.leb_spec 40 x), (Z.ltb_spec y 0),
    (Z.leb_spec 25 y); cbn [orb];
    try (repeat split; first [done | lia | intros; lia | intros [? ?]; lia]).
  case_bool_decide; repeat split; try done; try lia; try tauto;
    intros []; tauto.
Qed.

(** ** The live tick in full *)

Lemma handle_power_up_bonus (p : PowerUp) (score : Z) :
  handle_power_up p score = score + bonus p.
Proof. unfold bonus, handle_power_up. destruct (type p); lia. Qed.

Lemma bonus_range (p : PowerUp) : 25 <= bonus p <= 50.
Proof. unfold bonus, handle_power_up. destruct (type p); lia. Qed.

Lemma total_bonus_nonneg (l : list PowerUp) : 0 <= total_bonus l.
Proof.
  induction l as [| p l IH]; cbn; [done |].
  pose proof (bonus_range p). fold (total_bonus l). lia.
Qed.

(** The pickup loop with its score: the bonus of every power-up under the
    new head is added. *)
Lemma pickup_loop_exact (copy kept : list PowerUp) (h : Cell) (score : Z) :
  Forall (fun p => h <> pos p) kept ->
  pickup_loop copy h (kept ++ copy) score
  = Returns (kept ++ filter (fun p => h <> pos p) copy,
             score + total_bonus (filter (fun p => h = pos p) copy)).
Proof.
  revert kept score.
  induction copy as [| p copy IH]; intros kept score Hkept;
    cbn [pickup_loop].
  - cbn. by rewrite Z.add_0_r.
  - rewrite !filter_cons. case_bool_decide as Hp.
    + rewrite list_remove_middle; cycle 1.
      { eapply Forall_impl; [exact Hkept |]. intros q Hq.
        apply bool_decide_eq_false. intros ->. by apply Hq. }
      { by apply bool_decide_eq_true. }
      rewrite decide_False by (by intros Hne; apply Hne).
      rewrite decide_True by done.
      cbn [mbind outcome_bind]. rewrite IH by done.
      rewrite handle_power_up_bonus. cbn [total_bonus foldr].
      fold (total_bonus (filter (fun p => h = pos p) copy)).
      do 2 f_equal. lia.
    + rewrite decide_True by done. rewrite decide_False by done.
      specialize (IH (kept ++ [p]) score).
      rewrite <- !app_assoc in IH. apply IH.
      apply Forall_app. split; [done | by apply Forall_singleton].
Qed.

(** The session that a tick without collision returns, field by field. *)
Lemma update_game_live (fuel : nat) (t1 t2 : float) (s : Game) (g g' : Random)
    (h : Cell) (snake' : list Cell) (food' : Cell)
    (power_ups' : list PowerUp) (score' : Z) :
  paused s = false -> game_over s = false ->
  new_head s = Some h -> collision h (snake s) = None ->
  food_branch fuel (adapt_difficulty (ai_master s) (score s) t1)
              h (h :: snake s) (food s) (power_ups s) (score s) g
  = Returns (snake', food', power_ups', score', g') ->
  update_game fuel t1 t2 s g
  = Returns
      ({| ai_master := adapt_difficulty (ai_master s) (score s) t1;
          snake := snake';
          direction := direction s;
          last_direction := direction s;
          food := food';
          power_ups :=
            filter (fun p => 0 < timer p)
              (tick_timer <$> filter (fun p => h <> pos p) power_ups');
          score := score' + total_bonus (filter (fun p => h = pos p) power_ups');
          game_over := false;
          paused := false;
          movement_history := movement_history s;
          ai_prediction :=
            predict_next_move (adapt_difficulty (ai_master s) (score s) t1)
              (default (0, 0) (head (snake s))) (last_direction s);
          show_ai_hints := show_ai_hints s |}, g').
Proof.
  intros Hrun Hlive Hhead Hcol Hbranch. unfold update_game, new_head in *.
  rewrite Hrun, Hlive. cbn [orb].
  destruct (snake s) as [| head body]; [done |].
  injection Hhead as <-. rewrite Hcol, Hbranch. cbn [mbind outcome_bind].
  rewrite (pickup_loop_exact power_ups' [] _ score' (Forall_nil_2 _)).
  cbn [mbind outcome_bind app]. rewrite update_timers_returns.
  reflexivity.
Qed.

(** What the food test leaves, with where the placements lie. *)
Lemma food_branch_placement (fuel : nat) (am : AIGameMaster) (h : Cell)
    (snake snake' : list Cell) (food food' : Cell)
    (power_ups power_ups' : list PowerUp) (score score' : Z)
    (g g' : Random) :
  food_branch fuel am h snake food power_ups score g
  = Returns (snake', food', power_ups', score', g') ->
  exists added,
    power_ups' = power_ups ++ added /\ (length added <= 1)%nat /\
    Forall (fun p => (pos p ∉ snake) /\ pos p <> food' /\
                     in_grid (pos p) /\ timer p = 300) added /\
    (h <> food ->
       added = [] /\ g' = g /\ snake' = removelast snake /\ food' = food /\
       score' = score) /\
    (h = food ->
       snake' = snake /\ (food' ∉ snake) /\ in_grid food' /\
       score' = score + 10).
Proof.
  unfold food_branch. case_bool_decide as Hfood.
  - destruct (spawn_food fuel snake g) as [[f g1] | e |] eqn:Hspawn;
      cbn; [| done..].
    apply spawn_food_spec in Hspawn as (Hf & Hfg & _).
    destruct (should_spawn_power_up _ _ _ g1) as [[] g2].
    + destruct (spawn_power_up fuel snake f g2) as [[p g3] | e |] eqn:Hpower;
        cbn; [| done..].
      apply spawn_power_up_spec in Hpower as (Hp1 & Hp2 & Hp3 & Hp4 & _).
      intros [= <- <- <- <- <-]. exists [p].
      split_and!; [done | cbn; lia | by apply Forall_singleton | done | done].
    + intros [= <- <- <- <- <-]. exists []. rewrite app_nil_r.
      split_and!; [done | cbn; lia | by apply Forall_nil | done | done].
  - intros [= <- <- <- <- <-]. exists []. rewrite app_nil_r.
    split_and!; [done | cbn; lia | by apply Forall_nil | done | done].
Qed.

(** Every outcome of a tick without collision. *)
Lemma live_tick (fuel : nat) (t1 t2 : float) (s : Game) (g : Random)
    (h : Cell) :
  paused s = false -> game_over s = false ->
  new_head s = Some h -> collision h (snake s) = None ->
  match update_game fuel t1 t2 s g with
  | Returns (s', g') =>
      exists added food',
        (length added <= 1)%nat /\
        Forall (fun p => (pos p ∉ h :: snake s) /\ pos p <> food' /\
                         in_grid (pos p) /\ timer p = 300) added /\
        (h <> food s -> added = [] /\ food' = food s /\ g' = g) /\
        (h = food s -> (food' ∉ h :: snake s) /\ in_grid food') /\
        s' = {| ai_master := adapt_difficulty (ai_master s) (score s) t1;
                snake := if decide (h = food s) then h :: snake s
                         else h :: removelast (snake s);
                direction := direction s;
                last_direction := direction s;
                food := food';
                power_ups :=
                  filter (fun p => 0 < timer p)
                    (tick_timer <$> filter (fun p => h <> pos p) (power_ups s))
                  ++ (tick_timer <$> added);
                score :=
                  score s + (if decide (h = food s) then 10 else 0)
                  + total_bonus (filter (fun p => h = pos p) (power_ups s));
                game_over := false;
                paused := false;
                movement_history := movement_history s;
                ai_prediction :=
                  predict_next_move
                    (adapt_difficulty (ai_master s) (score s) t1)
                    (default (0, 0) (head (snake s))) (last_direction s);
                show_ai_hints := show_ai_hints s |}
  | Raises _ => False
  | OutOfFuel => h = food s
  end.
Proof.
  intros Hrun Hlive Hhead Hcol.
  pose proof (update_game_alive fuel t1 t2 s g h Hrun Hlive Hhead Hcol)
    as Halive.
  pose proof (food_branch_never_raises fuel
                (adapt_difficulty (ai_master s) (score s) t1)
                h (h :: snake s) (food s) (power_ups s) (score s) g) as Hnever.
  destruct (food_branch _ _ _ _ _ _ _ _)
    as [[[[[snake' food'] power_ups'] score'] g1] | e |] eqn:Hbranch.
  - rewrite (update_game_live fuel t1 t2 s g g1 h _ _ _ _
               Hrun Hlive Hhead Hcol Hbranch).
    apply food_branch_placement in Hbranch
      as (added & -> & Hlen & Hadded & Hno & Hyes).
    exists added, food'. split; [done |]. split; [done |].
    assert (snake s <> []) as Hsnake.
    { unfold new_head in Hhead. by destruct (snake s). }
    assert (filter (fun p => h <> pos p) added = added) as Hkeep.
    { clear -Hadded. induction Hadded as [| p l [Hp _] _ IH]; [done |].
      rewrite filter_cons, decide_True, IH; [done |].
      intros ->. apply Hp, list_elem_of_here. }
    assert (filter (fun p => h = pos p) added = []) as Hdrop.
    { clear -Hadded. induction Hadded as [| p l [Hp _] _ IH]; [done |].
      rewrite filter_cons, decide_False, IH; [done |].
      intros ->. apply Hp, list_elem_of_here. }
    assert (filter (fun p => 0 < timer p) (tick_timer <$> added)
            = tick_timer <$> added) as Hfresh.
    { clear -Hadded.
      induction Hadded as [| p l (_ & _ & _ & Hp) _ IH]; [done |].
      cbn [fmap list_fmap]. rewrite filter_cons, decide_True; [| cbn; lia].
      by rewrite <- IH at 2. }
    rewrite !filter_app, Hkeep, Hdrop, app_nil_r, fmap_app, filter_app, Hfresh.
    destruct (decide (h = food s)) as [Heq | Hne].
    + destruct (Hyes Heq) as (-> & Hf & Hfg & ->).
      split; [done |]. split; [done |]. done.
    + destruct (Hno Hne) as (-> & -> & -> & -> & ->).
      split; [done |]. split; [done |].
      cbn [removelast]. destruct (snake s); [done |].
      by rewrite Z.add_0_r.
  - by destruct (Hnever e).
  - rewrite Halive. destruct (decide (h = food s)) as [-> | Hne]; [done |].
    by rewrite food_branch_no_food in Hbranch.
Qed.

(** X2.  A tick without collision puts the new head in front of the snake
    and, unless the head is on the food, drops the last cell; the direction
    moved becomes the last direction, the game goes on and the move log is
    left alone.  Such a tick never raises, and only a tick onto the food
    can run out of fuel. *)
Theorem tick_advances_snake (fuel : nat) (t1 t2 : float) (s : Game)
    (g : Random) (h : Cell)
    (Hrun : paused s = false) (Hlive : game_over s = false)
    (Hhead : new_head s = Some h) (Hcol : collision h (snake s) = None) :
  match update_game fuel t1 t2 s g with
  | Returns (s', _) =>
      snake s' = (if decide (h = food s) then h :: snake s
                  else h :: removelast (snake s)) /\
      direction s' = direction s /\ last_direction s' = direction s /\
      game_over s' = false /\ movement_history s' = movement_history s
  | Raises _ => False
  | OutOfFuel => h = food s
  end.
Proof.
  pose proof (live_tick fuel t1 t2 s g h Hrun Hlive Hhead Hcol) as Htick.
  destruct (update_game fuel t1 t2 s g) as [[s' g'] | e |]; [| done..].
  destruct Htick as (added & food' & _ & _ & _ & _ & ->). done.
Qed.

Lemma tick_advances_snake_witness :
  match update_game 0 zero zero curled_free (source [0]) with
  | Returns (s', _) =>
      snake s' = (if decide ((6, 7) = food curled_free)
                  then (6, 7) :: snake curled_free
                  else (6, 7) :: removelast (snake curled_free)) /\
      direction s' = direction curled_free /\
      last_direction s' = direction curled_free /\
      game_over s' = false /\
      movement_history s' = movement_history curled_free
  | Raises _ => False
  | OutOfFuel => (6, 7) = food curled_free
  end.
Proof.
  apply (tick_advances_snake 0 zero zero curled_free (source [0]) (6, 7));
    reflexivity.
Defined.

(** X3.  A tick without collision adds to the score 10 if the new head is
    on the food, and the bonus of every power-up that lay under the new
    head; the food stays where it is unless eaten, and food placed anew is
    in the grid and off the snake, new head included. *)
Theorem tick_score_and_food (fuel : nat) (t1 t2 : float) (s : Game)
    (g : Random) (h : Cell)
    (Hrun : paused s = false) (Hlive : game_over s = false)
    (Hhead : new_head s = Some h) (Hcol : collision h (snake s) = None) :
  match update_game fuel t1 t2 s g with
  | Returns (s', _) =>
      score s'
      = score s + (if decide (h = food s) then 10 else 0)
        + total_bonus (filter (fun p => h = pos p) (power_ups s)) /\
      (h <> food s -> food s' = food s) /\
      (h = food s -> (food s' ∉ snake s') /\ in_grid (food s'))
  | Raises _ => False
  | OutOfFuel => h = food s
  end.
Proof.
  pose proof (live_tick fuel t1 t2 s g h Hrun Hlive Hhead Hcol) as Htick.
  destruct (update_game fuel t1 t2 s g) as [[s' g'] | e |]; [| done..].
  destruct Htick as (added & food' & _ & _ & Hno & Hyes & ->).
  cbn [score food snake]. split; [done |]. split.
  - intros Hne. by destruct (Hno Hne) as (_ & -> & _).
  - intros Heq. rewrite decide_True by done. by apply Hyes.
Qed.

Lemma tick_score_and_food_witness :
  match update_game 2 zero zero opening (source [5; 7; 0; 3; 3; 1]) with
  | Returns (s', _) =>
      score s'
      = score opening + (if decide ((21, 12) = food opening) then 10 else 0)
        + total_bonus (filter (fun p => (21, 12) = pos p) (power_ups opening))
      /\
      ((21, 12) <> food opening -> food s' = food opening) /\
      ((21, 12) = food opening -> (food s' ∉ snake s') /\ in_grid (food s'))
  | Raises _ => False
  | OutOfFuel => (21, 12) = food opening
  end.
Proof.
  apply (tick_score_and_food 2 zero zero opening
           (source [5; 7; 0; 3; 3; 1]) (21, 12)); reflexivity.
Defined.

(** X4.  After a tick without collision the power-ups are those that were
    not under the new head, each with one tick less and dropped at zero,
    in their order, followed by the one placed on this tick if any, which
    has 299 ticks left and lies in the grid, off the snake and off the
    food. *)
Theorem tick_ages_power_ups (fuel : nat) (t1 t2 : float) (s : Game)
    (g : Random) (h : Cell)
    (Hrun : paused s = false) (Hlive : game_over s = false)
    (Hhead : new_head s = Some h) (Hcol : collision h (snake s) = None) :
  match update_game fuel t1 t2 s g with
  | Returns (s', _) =>
      exists fresh,
        (length fresh <= 1)%nat /\
        (h <> food s -> fresh = []) /\
        Forall (fun p => timer p = 299 /\ (pos p ∉ snake s') /\
                         pos p <> food s' /\ in_grid (pos p)) fresh /\
        power_ups s'
        = filter (fun p => 0 < timer p)
            (tick_timer <$> filter (fun p => h <> pos p) (power_ups s))
          ++ fresh
  | Raises _ => False
  | OutOfFuel => h = food s
  end.
Proof.
  pose proof (live_tick fuel t1 t2 s g h Hrun Hlive Hhead Hcol) as Htick.
  destruct (update_game fuel t1 t2 s g) as [[s' g'] | e |]; [| done..].
  destruct Htick as (added & food' & Hlen & Hadded & Hno & Hyes & ->).
  cbn [power_ups snake food]. exists (tick_timer <$> added).
  split; [by rewrite length_fmap |]. split.
  - intros Hne. by destruct (Hno Hne) as (-> & _).
  - split; [| done]. apply Forall_fmap.
    eapply Forall_impl; [exact Hadded |].
    intros p (Hp1 & Hp2 & Hp3 & Hp4). cbn. split; [lia |].
    split; [| done]. intros Hin. apply Hp1.
    destruct (decide (h = food s)); [done |].
    apply elem_of_cons in Hin as [-> | Hin]; [apply list_elem_of_here |].
    apply list_elem_of_further.
    unfold new_head in Hhead. destruct (snake s) as [| a l]; [done |].
    clear -Hin. revert a Hin. induction l as [| b l IH]; intros a Hin.
    + by apply elem_of_nil in Hin.
    + cbn [removelast] in Hin.
      apply elem_of_cons in Hin as [-> | Hin]; [apply list_elem_of_here |].
      apply list_elem_of_further. by apply IH.
Qed.

Lemma tick_ages_power_ups_witness :
  match update_game 2 zero zero opening (source [5; 7; 0; 3; 3; 1]) with
  | Returns (s', _) =>
      exists fresh,
        (length fresh <= 1)%nat /\
        ((21, 12) <> food opening -> fresh = []) /\
        Forall (fun p => timer p = 299 /\ (pos p ∉ snake s') /\
                         pos p <> food s' /\ in_grid (pos p)) fresh /\
        power_ups s'
        = filter (fun p => 0 < timer p)
            (tick_timer <$> filter (fun p => (21, 12) <> pos p)
                              (power_ups opening))
          ++ fresh
  | Raises _ => False
  | OutOfFuel => (21, 12) = food opening
  end.
Proof.
  apply (tick_ages_power_ups 2 zero zero opening
           (source [5; 7; 0; 3; 3; 1]) (21, 12)); reflexivity.
Defined.

(** ** The invariants of play *)

Lemma collision_none (h : Cell) (snake : list Cell) :
  collision h snake = None -> in_grid h /\ (h ∉ snake).
Proof.
  destruct h as [x y]. unfold collision, in_grid. cbn [fst snd].
  change GRID_WIDTH with 40. change GRID_HEIGHT with 25.
  destruct (Z.ltb_spec x 0), (Z.leb_spec 40 x), (Z.ltb_spec y 0),
    (Z.leb_spec 25 y); cbn [orb]; try done.
  case_bool_decide; [done |]. intros _. split; [lia | done].
Qed.

Lemma removelast_sublist {A} (l : list A) : removelast l `sublist_of` l.
Proof.
  induction l as [| a [| b l] IH]; cbn [removelast]; [done | |].
  - apply sublist_nil_l.
  - by apply sublist_skip.
Qed.

Lemma removelast_cons_length {A} (a : A) (l : list A) :
  length (removelast (a :: l)) = length l.
Proof.
  revert a. induction l as [| b l IH]; intros a; [done |].
  change (removelast (a :: b :: l)) with (a :: removelast (b :: l)).
  cbn [length]. by rewrite IH.
Qed.

Lemma chain_removelast (l : list Cell) : chain l -> chain (removelast l).
Proof.
  induction l as [| a [| b [| c l]] IH]; cbn; try done.
  intros [Hab Hrest]. split; [done |]. by apply IH.
Qed.

(** The snake after a tick without collision: its cells are the new head
    and cells of the old snake, and it is again a chain of distinct cells
    in the grid with the old head for its neck. *)
Lemma advanced_snake (a h : Cell) (l : list Cell) (eats : bool) (d : Direction) :
  h = step d a -> in_grid h -> h ∉ a :: l ->
  NoDup (a :: l) -> Forall in_grid (a :: l) -> chain (a :: l) ->
  let snake' := if eats then h :: a :: l else h :: removelast (a :: l) in
  NoDup snake' /\ Forall in_grid snake' /\ chain snake' /\
  (forall x, x ∈ snake' -> x ∈ h :: a :: l) /\
  (forall head neck rest,
     snake' = head :: neck :: rest -> head = step d neck) /\
  length snake' = (if eats then S (S (length l)) else S (length l)).
Proof.
  intros Hstep Hgrid Hfree Hdistinct Hall Hchain. cbv zeta.
  pose proof (removelast_sublist (a :: l)) as Hsub.
  destruct eats.
  - split_and!; try done.
    + by apply NoDup_cons.
    + by apply Forall_cons.
    + cbn [chain]. eauto.
    + by intros ? ? ? [= <- <- _].
  - split_and!.
    + apply NoDup_cons. split.
      * intros Hin. by apply Hfree, (elem_of_sublist _ _ _ Hin).
      * by apply (sublist_NoDup _ _ Hdistinct Hsub).
    + apply Forall_cons. split; [done |].
      rewrite Forall_forall in Hall |- *. intros x Hx.
      by apply Hall, (elem_of_sublist _ _ _ Hx).
    + destruct l as [| b l]; [done |].
      change (removelast (a :: b :: l)) with (a :: removelast (b :: l)).
      change (removelast (a :: b :: l)) with (a :: removelast (b :: l)) in Hsub.
      split; [eauto |].
      by apply (chain_removelast (a :: b :: l)).
    + intros x [-> | Hx]%elem_of_cons; [apply list_elem_of_here |].
      by apply list_elem_of_further, (elem_of_sublist _ _ _ Hx).
    + destruct l as [| b l]; [done |].
      change (removelast (a :: b :: l)) with (a :: removelast (b :: l)).
      by intros ? ? ? [= <- <- _].
    + cbn [length]. by rewrite removelast_cons_length.
Qed.

Lemma update_game_well_formed (fuel : nat) (t1 t2 : float) (s : Game)
    (g : Random) :
  well_formed s ->
  match update_game fuel t1 t2 s g with
  | Returns (s', _) => well_formed s'
  | Raises e => stats_failure (player_data (ai_master s)) (score s) e
  | OutOfFuel => new_head s = Some (food s)
  end.
Proof.
  intros [Hsnake Hdist Hgrid Hchain Hneck [Hfood Hfoodg] Hpus Hscore].
  destruct (paused s || game_over s) eqn:Hstop.
  { unfold update_game. rewrite Hstop. by constructor. }
  apply orb_false_iff in Hstop as [Hrun Hlive].
  destruct (snake s) as [| a l] eqn:Hs; [done |].
  assert (new_head s = Some (step (direction s) a)) as Hhead
    by (unfold new_head; by rewrite Hs).
  set (h := step (direction s) a) in *.
  destruct (collision h (snake s)) as [c |] eqn:Hcol.
  - rewrite (update_game_death fuel t1 t2 s g h c) by done.
    pose proof (update_player_stats_outcome
                  (adapt_difficulty (ai_master s) (score s) t1)
                  (score s) t2 c (movement_history s)) as Hstats.
    destruct (update_player_stats _ _ _ _ _) as [am' | e |];
      cbn [mbind outcome_bind]; [| done | done].
    constructor; cbn [snake last_direction food power_ups score];
      rewrite ?Hs; try done.
  - pose proof (live_tick fuel t1 t2 s g h Hrun Hlive Hhead Hcol) as Htick.
    destruct (update_game fuel t1 t2 s g) as [[s' g'] | e |];
      [| done | rewrite Hhead; by f_equal].
    destruct Htick as (added & food' & Hlen & Hadded & Hno & Hyes & ->).
    rewrite Hs in *. apply collision_none in Hcol as [Hgridh Hfree].
    assert (exists eats : bool,
              (if decide (h = food s) then h :: a :: l
               else h :: removelast (a :: l))
              = (if eats then h :: a :: l else h :: removelast (a :: l)) /\
              (eats = true <-> h = food s)) as (eats & Heats & Heats').
    { destruct (decide (h = food s)); [by exists true | exists false].
      split; [done |]. split; [done | congruence]. }
    destruct (advanced_snake a h l eats (direction s) eq_refl Hgridh Hfree
                Hdist Hgrid Hchain)
      as (Hdist' & Hgrid' & Hchain' & Hsub & Hneck' & Hlen').
    rewrite <- Heats in *.
    constructor;
      cbn [snake last_direction food power_ups score]; try done.
    + by destruct (decide (h = food s)).
    + destruct (decide (h = food s)) as [Heq | Hne].
      * by apply Hyes.
      * destruct (Hno Hne) as (_ & -> & _). split; [| done].
        intros Hin. apply Hsub in Hin.
        apply elem_of_cons in Hin as [? | ?]; [congruence | done].
    + apply Forall_app. split.
      * apply Forall_forall. intros p' Hp'.
        apply list_elem_of_filter in Hp' as [Htimer Hp'].
        apply list_elem_of_fmap in Hp' as (p & -> & Hp).
        apply list_elem_of_filter in Hp as [Hpos Hp].
        rewrite Forall_forall in Hpus.
        destruct (Hpus p Hp) as (Hp1 & Hp2 & Hp3). cbn in *.
        split_and!; [| done | done | lia].
        intros Hin. apply Hsub in Hin.
        apply elem_of_cons in Hin as [? | ?]; [congruence | done].
      * apply Forall_fmap. eapply Forall_impl; [exact Hadded |].
        intros p (Hp1 & _ & Hp3 & Hp4). cbn.
        split_and!; [| done | lia | lia].
        intros Hin. by apply Hp1, Hsub.
    + pose proof (total_bonus_nonneg
                    (filter (fun p => h = pos p) (power_ups s))).
      rewrite Hlen'. cbn [length] in Hscore.
      destruct (decide (h = food s)) as [Heq | Hne].
      * apply Heats' in Heq as ->. lia.
      * destruct eats; [by destruct Hne; apply Heats' | lia].
Qed.

(** X5.  A tick keeps a session well formed: afterwards the snake is again
    a non-empty chain of distinct cells in the grid whose neck lies behind
    the head, the food is in the grid and off the snake, every power-up is
    in the grid, off the snake and has between 1 and 299 ticks left, and
    the score is at least ten times the cells grown.  The tick of a
    well-formed session raises only where the statistics update of a death
    does (on the profiles and scores of [stats_failure]: a game count of
    -1, an integer beyond the float range), and runs out of fuel only on
    the food cell. *)
Theorem tick_keeps_well_formed (fuel : nat) (t1 t2 : float) (s : Game)
    (g : Random) (Hwf : well_formed s) :
  match update_game fuel t1 t2 s g with
  | Returns (s', _) => well_formed s'
  | Raises e => stats_failure (player_data (ai_master s)) (score s) e
  | OutOfFuel => new_head s = Some (food s)
  end.
Proof. by apply update_game_well_formed. Qed.

Lemma spawn_food_out_of_fuel (fuel : nat) (snake : list Cell) (g : Random) :
  spawn_food fuel snake g = OutOfFuel ->
  forall k, (k < fuel)%nat -> candidate g k ∈ snake.
Proof.
  intros Hout k Hk.
  destruct (decide (candidate g k ∈ snake)) as [| Hfree]; [done |].
  destruct (spawn_food_returns snake g k Hfree) as (c & g' & _ & Hret).
  rewrite (Hret fuel Hk) in Hout. done.
Qed.

Lemma reset_game_well_formed (fuel : nat) (am : AIGameMaster) (g g' : Random)
    (s : Game) :
  reset_game fuel am g = Returns (s, g') ->
  well_formed s /\ ai_master s = am /\ snake s = [(20, 12)] /\
  direction s = Right /\ score s = 0 /\ power_ups s = [] /\
  movement_history s = [] /\ game_over s = false /\ paused s = false.
Proof.
  unfold reset_game. cbv zeta.
  destruct (spawn_food fuel _ g) as [[f g1] | e |] eqn:Hspawn;
    cbn [mbind outcome_bind]; [| done..].
  apply spawn_food_spec in Hspawn as (Hf & Hfg & _).
  intros [= <- <-]. split; [| done].
  constructor; cbn [snake last_direction food power_ups score]; try done.
  - apply NoDup_singleton.
  - apply Forall_singleton. by vm_compute.
Qed.

Lemma well_formed_opening : well_formed opening.
Proof.
  by apply (reset_game_well_formed 1 (new_AIGameMaster default_player_data)
              (source [21; 12]) {| tape := cycle [21; 12]; cursor := 2 |}
              opening eq_refl).
Qed.

Lemma tick_keeps_well_formed_witness :
  match update_game 2 zero zero opening (source [5; 7; 0; 3; 3; 1]) with
  | Returns (s', _) => well_formed s'
  | Raises e =>
      stats_failure (player_data (ai_master opening)) (score opening) e
  | OutOfFuel => new_head opening = Some (food opening)
  end.
Proof.
  apply (tick_keeps_well_formed 2 zero zero opening
           (source [5; 7; 0; 3; 3; 1])).
  apply well_formed_opening.
Defined.

(** X6.  [reset_game] opens a well-formed session: a snake of the one cell
    (20, 12) heading right, food in the grid and off that cell, no
    power-ups, no score, an empty move log, neither paused nor over, and
    the game master it was given, profile included.  It never raises, and
    it runs out of fuel only when every cell drawn within the fuel is the
    snake's own. *)
Theorem reset_game_opens_well_formed (fuel : nat) (am : AIGameMaster)
    (g : Random) :
  match reset_game fuel am g with
  | Returns (s, _) =>
      well_formed s /\ ai_master s = am /\ snake s = [(20, 12)] /\
      direction s = Right /\ score s = 0 /\ power_ups s = [] /\
      movement_history s = [] /\ game_over s = false /\ paused s = false
  | Raises _ => False
  | OutOfFuel => forall k, (k < fuel)%nat -> candidate g k = (20, 12)
  end.
Proof.
  destruct (reset_game fuel am g) as [[s g'] | e |] eqn:Hreset.
  - by apply (reset_game_well_formed fuel am g g').
  - unfold reset_game in Hreset. cbv zeta in Hreset.
    pose proof (spawn_food_never_raises fuel
                  [(GRID_WIDTH / 2, GRID_HEIGHT / 2)] g) as Hnever.
    destruct (spawn_food fuel _ g) as [[f g1] | e' |]; [done | | done].
    by destruct (Hnever e').
  - unfold reset_game in Hreset. cbv zeta in Hreset.
    destruct (spawn_food fuel _ g) as [[f g1] | e' |] eqn:Hspawn;
      [done | done |].
    intros k Hk.
    apply (spawn_food_out_of_fuel _ _ _ Hspawn k) in Hk.
    by apply list_elem_of_singleton in Hk.
Qed.

Lemma well_formed_same_board (s s' : Game) :
  snake s' = snake s -> last_direction s' = last_direction s ->
  food s' = food s -> power_ups s' = power_ups s -> score s' = score s ->
  well_formed s -> well_formed s'.
Proof.
  intros Hsn Hld Hfd Hpu Hsc [? ? ? ? ? ? ? ?].
  constructor; rewrite ?Hsn, ?Hld, ?Hfd, ?Hpu, ?Hsc; done.
Qed.

Lemma handle_input_well_formed (fuel : nat) (events : list Event)
    (s s' : Game) (g g' : Random) (running : bool) :
  well_formed s ->
  handle_input fuel events s g = Returns (running, s', g') ->
  well_formed s'.
Proof.
  revert s g. induction events as [| e events IH]; intros s g Hwf;
    cbn [handle_input].
  - by intros [= _ <- _].
  - destruct e as [| key |]; [by intros [= _ <- _] | | by apply IH].
    repeat case_bool_decide; try by intros [= _ <- _].
    + destruct (game_over s).
      * destruct (reset_game fuel (ai_master s) g) as [[s1 g1] | |]
          eqn:Hreset; cbn [mbind outcome_bind]; [| done..].
        apply IH. by apply reset_game_well_formed in Hreset as [? _].
      * apply IH. by apply (well_formed_same_board s).
    + apply IH. by apply (well_formed_same_board s).
    + destruct (negb (paused s) && negb (game_over s)); [| by apply IH].
      destruct (new_direction key (direction s)); [| by apply IH].
      apply IH. by apply (well_formed_same_board s).
Qed.

Lemma run_well_formed (fuel : nat) (frames : list FrameInput) (s s' : Game)
    (g g' : Random) (running : bool) :
  well_formed s ->
  run fuel frames s g = Returns (running, s', g') ->
  well_formed s'.
Proof.
  revert s g. induction frames as [| i frames IH]; intros s g Hwf;
    cbn [run].
  - by intros [= _ <- _].
  - unfold frame.
    destruct (handle_input fuel (events i) s g) as [[[r1 s1] g1] | |]
      eqn:Hinput; cbn [mbind outcome_bind]; [| done..].
    apply handle_input_well_formed in Hinput; [| done].
    pose proof (update_game_well_formed fuel (t_adapt i) (t_death i) s1 g1
                  Hinput) as Htick.
    destruct (update_game fuel (t_adapt i) (t_death i) s1 g1)
      as [[s2 g2] | |]; cbn [mbind outcome_bind]; [| done..].
    destruct r1; [by apply IH | by intros [= _ <- _]].
Qed.

(** X7.  Every session that the main loop reaches is well formed: whatever
    the profile loaded, the random source, the frames' events and clock
    readings, the session in which [run] leaves off, begun from
    [RetroSnakeGame.__init__], has a non-empty snake of distinct, chained
    cells in the grid, food in the grid and off the snake, and power-ups
    in the grid, off the snake, with 1 to 299 ticks left. *)
Theorem reachable_well_formed (fuel : nat) (loaded : PlayerData)
    (frames : list FrameInput) (g0 g1 g' : Random) (s0 s' : Game)
    (running : bool)
    (Hinit : new_RetroSnakeGame fuel loaded g0 = Returns (s0, g1))
    (Hrun : run fuel frames s0 g1 = Returns (running, s', g')) :
  well_formed s'.
Proof.
  apply reset_game_well_formed in Hinit as [Hwf _].
  by apply (run_well_formed fuel frames s0 s' g1 g' running).
Qed.

Lemma reachable_well_formed_witness :
  exists s' g',
    run 2 first_frames opening
        {| tape := cycle [21; 12; 5; 7; 0; 3; 3; 1]; cursor := 2 |}
    = Returns (false, s', g') /\
    snake s' = [(21, 11); (21, 12)] /\ paused s' = true /\
    well_formed s'.
Proof.
  eexists _, _. split; [vm_compute; reflexivity |].
  split; [reflexivity |]. split; [reflexivity |].
  eapply (reachable_well_formed 2 default_player_data first_frames
           (source [21; 12; 5; 7; 0; 3; 3; 1])
           {| tape := cycle [21; 12; 5; 7; 0; 3; 3; 1]; cursor := 2 |}
           _ opening _ false).
  - reflexivity.
  - vm_compute. reflexivity.
Defined.

(** ** Input *)

Lemma handle_input_arrow (fuel : nat) (events : list Event) (s : Game)
    (g : Random) (key : Key) (d : Direction) :
  paused s = false -> game_over s = false -> arrow key = Some d ->
  handle_input fuel (KEYDOWN key :: events) s g
  = handle_input fuel events
      (if decide (d = opposite (direction s)) then s else turn d s) g.
Proof.
  intros Hrun Hlive Harrow. cbn [handle_input].
  rewrite Hrun, Hlive. unfold new_direction.
  destruct key; try discriminate Harrow; injection Harrow as <-;
    destruct (direction s); reflexivity.
Qed.

(** X8.  While the game is on, an arrow key turns the snake to its
    direction and logs it in the move history, a key for the direction
    already taken included; the key for the reverse of the current
    direction changes nothing at all. *)
Theorem arrow_key_turns_unless_reverse (fuel : nat) (s : Game) (g : Random)
    (key : Key) (d : Direction)
    (Hrun : paused s = false) (Hlive : game_over s = false)
    (Harrow : arrow key = Some d) :
  handle_input fuel [KEYDOWN key] s g
  = Returns (true,
             if decide (d = opposite (direction s)) then s else turn d s, g).
Proof. by rewrite (handle_input_arrow fuel [] s g key d). Qed.

Lemma arrow_key_turns_unless_reverse_witness :
  handle_input 0 [KEYDOWN K_LEFT] opening (source [0])
  = Returns (true,
             if decide (Left = opposite (direction opening)) then opening
             else turn Left opening, source [0]) /\
  handle_input 0 [KEYDOWN K_UP] opening (source [0])
  = Returns (true,
             if decide (Up = opposite (direction opening)) then opening
             else turn Up opening, source [0]).
Proof.
  split.
  - apply (arrow_key_turns_unless_reverse 0 opening (source [0]) K_LEFT Left);
      reflexivity.
  - apply (arrow_key_turns_unless_reverse 0 opening (source [0]) K_UP Up);
      reflexivity.
Defined.

Lemma handle_input_idle (fuel : nat) (events : list Event) (s : Game)
    (g : Random) :
  paused s || game_over s = true -> Forall plain_event events ->
  handle_input fuel events s g = Returns (true, s, g).
Proof.
  intros Hstop Hplain.
  induction Hplain as [| e events He _ IH]; [done |].
  cbn [handle_input]. destruct e as [| key |]; [done | | done].
  destruct He as (? & ? & ?).
  rewrite !bool_decide_eq_false_2 by done.
  apply orb_true_iff in Hstop as [-> | ->]; cbn [negb andb]; [done |].
  by rewrite andb_false_r.
Qed.

(** X9.  While the game is paused or over, a frame whose events are arrow
    keys, other keys and other events - no quit, escape, space or hint
    key - leaves the session and the random source exactly as they were:
    the keys are ignored and the tick does nothing. *)
Theorem idle_frame_changes_nothing (fuel : nat) (i : FrameInput) (s : Game)
    (g : Random)
    (Hstop : paused s || game_over s = true)
    (Hplain : Forall plain_event (events i)) :
  frame fuel i s g = Returns (true, s, g).
Proof.
  unfold frame. rewrite (handle_input_idle fuel (events i) s g) by done.
  cbn [mbind outcome_bind]. unfold update_game. by rewrite Hstop.
Qed.

Lemma idle_frame_changes_nothing_witness :
  frame 0 {| events := [KEYDOWN K_LEFT; OtherEvent; KEYDOWN K_other];
             t_adapt := zero; t_death := zero |}
        (toggle_pause curled) (source [0])
  = Returns (true, toggle_pause curled, source [0]).
Proof.
  apply (idle_frame_changes_nothing 0 _ (toggle_pause curled) (source [0])).
  - reflexivity.
  - repeat constructor; discriminate.
Defined.

Lemma toggle_pause_twice (s : Game) : toggle_pause (toggle_pause s) = s.
Proof. destruct s. unfold toggle_pause. cbn. by rewrite negb_involutive. Qed.

Lemma toggle_hints_twice (s : Game) : toggle_hints (toggle_hints s) = s.
Proof. destruct s. unfold toggle_hints. cbn. by rewrite negb_involutive. Qed.

(** X10.  While a game is on, handling input needs no fuel and no random
    draw and never raises; it can turn the snake, pause and toggle the
    hints, but leaves snake, food, power-ups, score, last direction, game
    master and prediction alone, does not end the game, and only appends
    to the move log. *)
Theorem input_leaves_board (fuel : nat) (events : list Event) (s : Game)
    (g : Random) (Hlive : game_over s = false) :
  exists running s',
    handle_input fuel events s g = Returns (running, s', g) /\
    ai_master s' = ai_master s /\ snake s' = snake s /\
    last_direction s' = last_direction s /\ food s' = food s /\
    power_ups s' = power_ups s /\ score s' = score s /\
    game_over s' = false /\ ai_prediction s' = ai_prediction s /\
    movement_history s `prefix_of` movement_history s'.
Proof.
  revert s Hlive. induction events as [| e events IH]; intros s Hlive;
    cbn [handle_input].
  - exists true, s. by split_and!.
  - assert (forall s1,
              game_over s1 = false ->
              ai_master s1 = ai_master s -> snake s1 = snake s ->
              last_direction s1 = last_direction s -> food s1 = food s ->
              power_ups s1 = power_ups s -> score s1 = score s ->
              ai_prediction s1 = ai_prediction s ->
              movement_history s `prefix_of` movement_history s1 ->
              exists running s',
                handle_input fuel events s1 g = Returns (running, s', g) /\
                ai_master s' = ai_master s /\ snake s' = snake s /\
                last_direction s' = last_direction s /\ food s' = food s /\
                power_ups s' = power_ups s /\ score s' = score s /\
                game_over s' = false /\ ai_prediction s' = ai_prediction s /\
                movement_history s `prefix_of` movement_history s')
      as Hnext.
    { intros s1 Hlive1 <- <- <- <- <- <- <- Hpre.
      destruct (IH s1 Hlive1)
        as (r & s' & -> & ? & ? & ? & ? & ? & ? & ? & ? & Hpre').
      exists r, s'. split_and!; try done. by etrans. }
    destruct e as [| key |].
    + exists false, s. by split_and!.
    + repeat case_bool_decide.
      * exists false, s. by split_and!.
      * rewrite Hlive. by apply Hnext.
      * by apply Hnext.
      * destruct (negb (paused s) && negb (game_over s)); [| by apply Hnext].
        destruct (new_direction key (direction s)); [| by apply Hnext].
        apply Hnext; try done. cbn. by apply prefix_app_r.
    + by apply Hnext.
Qed.

Lemma input_leaves_board_witness :
  exists running s',
    handle_input 0 [KEYDOWN K_UP; KEYDOWN K_h; KEYDOWN K_SPACE; QUIT;
                    KEYDOWN K_LEFT] curled (source [0])
    = Returns (running, s', source [0]) /\
    ai_master s' = ai_master curled /\ snake s' = snake curled /\
    last_direction s' = last_direction curled /\ food s' = food curled /\
    power_ups s' = power_ups curled /\ score s' = score curled /\
    game_over s' = false /\ ai_prediction s' = ai_prediction curled /\
    movement_history curled `prefix_of` movement_history s'.
Proof.
  apply (input_leaves_board 0 _ curled (source [0])). reflexivity.
Defined.

Lemma handle_input_quit (fuel : nat) (pre post : list Event) (e : Event)
    (s : Game) (g : Random) :
  Forall (fun e => e <> QUIT /\ e <> KEYDOWN K_ESCAPE) pre ->
  e = QUIT \/ e = KEYDOWN K_ESCAPE ->
  handle_input fuel (pre ++ e :: post) s g
  = '(_, s1, g1) ← handle_input fuel pre s g; Returns (false, s1, g1).
Proof.
  intros Hpre He. revert s g.
  induction Hpre as [| e' pre [He1 He2] _ IH]; intros s g.
  - by destruct He as [-> | ->].
  - cbn [app handle_input]. destruct e' as [| key |]; [done | | apply IH].
    rewrite (bool_decide_eq_false_2 (key = K_ESCAPE)) by congruence.
    repeat case_match; try apply IH.
    destruct (reset_game fuel (ai_master s) g) as [[s1 g1] | |];
      cbn [mbind outcome_bind]; [apply IH | done..].
Qed.

(** X11.  A quit event or the escape key ends the handling of input on the
    spot: the events after it in the frame are not looked at, and no later
    frame is run.  The tick of the quitting frame is still taken, on the
    session as the events before the quit left it. *)
Theorem quit_stops_after_tick (fuel : nat) (i : FrameInput)
    (frames : list FrameInput) (pre post : list Event) (e : Event)
    (s : Game) (g : Random)
    (Hevents : events i = pre ++ e :: post)
    (Hpre : Forall (fun e => e <> QUIT /\ e <> KEYDOWN K_ESCAPE) pre)
    (He : e = QUIT \/ e = KEYDOWN K_ESCAPE) :
  run fuel (i :: frames) s g
  = '(_, s1, g1) ← handle_input fuel pre s g;
    '(s2, g2) ← update_game fuel (t_adapt i) (t_death i) s1 g1;
    Returns (false, s2, g2).
Proof.
  cbn [run]. unfold frame.
  rewrite Hevents, (handle_input_quit fuel pre post e s g Hpre He).
  destruct (handle_input fuel pre s g) as [[[r s1] g1] | |];
    cbn [mbind outcome_bind]; [| done..].
  by destruct (update_game fuel (t_adapt i) (t_death i) s1 g1)
    as [[s2 g2] | |].
Qed.

Lemma quit_stops_after_tick_witness :
  run 0 ({| events := [KEYDOWN K_LEFT; QUIT; KEYDOWN K_UP];
            t_adapt := zero; t_death := zero |} :: first_frames)
      curled_free (source [0])
  = '(_, s1, g1) ← handle_input 0 [KEYDOWN K_LEFT] curled_free (source [0]);
    '(s2, g2) ← update_game 0 zero zero s1 g1;
    Returns (false, s2, g2).
Proof.
  apply (quit_stops_after_tick 0
           {| events := [KEYDOWN K_LEFT; QUIT; KEYDOWN K_UP];
              t_adapt := zero; t_death := zero |}
           first_frames [KEYDOWN K_LEFT] [KEYDOWN K_UP] QUIT
           curled_free (source [0])).
  - reflexivity.
  - apply Forall_singleton. split; discriminate.
  - by left.
Defined.

Lemma well_formed_curled_free : well_formed curled_free.
Proof.
  constructor; cbn [snake last_direction food power_ups score curled_free].
  - done.
  - apply (bool_decide_unpack _). by vm_compute.
  - repeat constructor; cbn; lia.
  - cbn. split_and!; try done;
      [by exists Down | by exists Right | by exists Up].
  - by intros ? ? ? [= <- <- _].
  - split; [| by vm_compute]. apply (bool_decide_unpack _). by vm_compute.
  - apply Forall_singleton. split_and!; try (by vm_compute); try (cbn; lia).
    apply (bool_decide_unpack _). by vm_compute.
  - cbn. lia.
Qed.

Lemma step_opposite (d : Direction) (c : Cell) :
  step (opposite d) (step d c) = c.
Proof. destruct c as [x y], d; cbn; f_equal; lia. Qed.

Lemma collision_self (h : Cell) (snake : list Cell) :
  in_grid h -> h ∈ snake -> collision h snake = Some self.
Proof.
  destruct h as [x y]. unfold in_grid, collision. cbn [fst snd].
  intros [Hx Hy] Hin.
  destruct (Z.ltb_spec x 0); [lia |].
  destruct (Z.leb_spec GRID_WIDTH x); [lia |].
  destruct (Z.ltb_spec y 0); [lia |].
  destruct (Z.leb_spec GRID_HEIGHT y); [lia |].
  cbn [orb]. by rewrite bool_decide_eq_true_2.
Qed.

(** X12.  The reverse guard of [handle_input] compares a key with the
    current direction, which an earlier key of the same frame may already
    have changed.  For a well-formed running session whose snake has two
    cells or more and moves in its last direction, a sideways arrow key
    followed in the same frame by the arrow key of the reverse direction
    turns the snake back on its neck, and the tick of that frame ends the
    game with the death counted as [self]. *)
Theorem two_keys_reverse_the_snake (fuel : nat) (t1 t2 : float) (s : Game)
    (g : Random) (k1 k2 : Key) (d1 : Direction)
    (Hwf : well_formed s)
    (Hrun : paused s = false) (Hlive : game_over s = false)
    (Hsame : direction s = last_direction s)
    (Hlen : (2 <= length (snake s))%nat)
    (Hk1 : arrow k1 = Some d1)
    (Hside : d1 <> direction s /\ d1 <> opposite (direction s))
    (Hk2 : arrow k2 = Some (opposite (direction s))) :
  match frame fuel {| events := [KEYDOWN k1; KEYDOWN k2];
                      t_adapt := t1; t_death := t2 |} s g with
  | Returns (running, s', g') =>
      running = true /\ game_over s' = true /\
      direction s' = opposite (last_direction s) /\
      snake s' = snake s /\ g' = g /\
      dc_self (death_causes (player_data (ai_master s')))
      = dc_self (death_causes (player_data (ai_master s))) + 1
  | Raises e => stats_failure (player_data (ai_master s)) (score s) e
  | OutOfFuel => False
  end.
Proof.
  destruct Hside as [Hside1 Hside2].
  unfold frame. cbn [events t_adapt t_death].
  rewrite (handle_input_arrow fuel _ s g k1 d1) by done.
  rewrite decide_False by done.
  rewrite (handle_input_arrow fuel _ (turn d1 s) g k2
             (opposite (direction s))) by done.
  cbn [direction turn]. rewrite decide_False; cycle 1.
  { intros Heq. apply Hside1. by destruct d1, (direction s). }
  cbn [handle_input mbind outcome_bind].
  set (s2 := turn (opposite (direction s)) (turn d1 s)).
  assert (snake s2 = snake s) as Hsnake2 by done.
  destruct (snake s) as [| head [| neck rest]] eqn:Hs;
    [cbn in Hlen; lia | cbn in Hlen; lia |].
  assert (head = step (direction s) neck) as Hneck
    by (rewrite Hsame; by apply (wf_neck s Hwf head neck rest)).
  assert (new_head s2 = Some neck) as Hhead.
  { change (new_head s2)
      with (match snake s with
            | [] => None
            | head :: _ => Some (step (opposite (direction s)) head)
            end).
    by rewrite Hs, Hneck, step_opposite. }
  assert (collision neck (snake s2) = Some self) as Hcol.
  { rewrite Hsnake2. apply collision_self.
    - pose proof (wf_in_grid s Hwf) as Hgrid. rewrite Hs in Hgrid.
      by apply Forall_cons in Hgrid as [_ [? _]%Forall_cons].
    - apply list_elem_of_further, list_elem_of_here. }
  rewrite (update_game_death fuel t1 t2 s2 g neck self) by done.
  change (ai_master s2) with (ai_master s).
  change (score s2) with (score s).
  pose proof (update_player_stats_outcome
                (adapt_difficulty (ai_master s) (score s) t1) (score s) t2
                self (movement_history s2)) as Hstats.
  destruct (update_player_stats _ _ _ _ _) as [am' | e |];
    cbn [mbind outcome_bind]; [| done..].
  destruct Hstats as [_ Hdc].
  cbn [game_over direction snake ai_master].
  change (direction s2) with (opposite (direction s)).
  rewrite Hdc, Hsame. split_and!; done.
Qed.

Lemma two_keys_reverse_the_snake_witness :
  match frame 0 {| events := [KEYDOWN K_LEFT; KEYDOWN K_UP];
                   t_adapt := zero; t_death := zero |}
              curled_free (source [0]) with
  | Returns (running, s', g') =>
      running = true /\ game_over s' = true /\
      direction s' = opposite (last_direction curled_free) /\
      snake s' = snake curled_free /\ g' = source [0] /\
      dc_self (death_causes (player_data (ai_master s')))
      = dc_self (death_causes (player_data (ai_master curled_free))) + 1
  | Raises e =>
      stats_failure (player_data (ai_master curled_free))
                    (score curled_free) e
  | OutOfFuel => False
  end.
Proof.
  apply (two_keys_reverse_the_snake 0 zero zero curled_free (source [0])
           K_LEFT K_UP Left); try reflexivity.
  - apply well_formed_curled_free.
  - cbn. lia.
  - split; discriminate.
Defined.

(** ** The statistics update *)

(** X13.  The statistics update appends the last 20 moves of the game (all
    of them when there are fewer) to the history, after dropping the
    oldest entry when the history already holds 50 or more: a history of
    at most 50 entries stays at most 50, and a longer one keeps its
    length.  The update raises only on the profiles and scores of
    [stats_failure]: [OverflowError] when the game count, the count after
    the game or the score is beyond the float range, [ZeroDivisionError]
    at a game count of -1 otherwise. *)
Theorem update_player_stats_history (am : AIGameMaster) (score : Z)
    (game_time : float) (c : DeathCause) (movements : list Direction) :
  match update_player_stats am score game_time c movements with
  | Returns am' =>
      let old := movement_patterns (player_data am) in
      let new := movement_patterns (player_data am') in
      new = (if (50 <=? length old)%nat then drop 1 old else old)
            ++ [last_n 20 movements] /\
      length new = (if (50 <=? length old)%nat then length old
                    else S (length old)) /\
      last_n 20 movements `suffix_of` movements /\
      length (last_n 20 movements) = (length movements `min` 20)%nat
  | Raises e => stats_failure (player_data am) score e
  | OutOfFuel => False
  end.
Proof.
  pose proof (update_player_stats_outcome am score game_time c movements)
    as Hout.
  destruct (update_player_stats am score game_time c movements)
    as [am' | e |] eqn:Hupd; [| done..].
  apply update_player_stats_returns in Hupd as (-> & _). cbv zeta.
  split; [done |]. split; [| split].
  - rewrite length_app. cbn [length].
    destruct (Nat.leb_spec 50 (length (movement_patterns (player_data am))));
      [| lia].
    rewrite length_drop. lia.
  - apply suffix_drop.
  - unfold last_n. rewrite length_drop. lia.
Qed.

Lemma fold_left_bump_direction (movements : list Direction)
    (pc : DirectionCounts) :
  let pc' := fold_left bump_direction movements pc in
  n_up pc' = n_up pc + occurrences Up movements /\
  n_down pc' = n_down pc + occurrences Down movements /\
  n_left pc' = n_left pc + occurrences Left movements /\
  n_right pc' = n_right pc + occurrences Right movements.
Proof.
  cbv zeta. revert pc.
  induction movements as [| d movements IH]; intros pc.
  - unfold occurrences. cbn. lia.
  - cbn [fold_left]. destruct (IH (bump_direction pc d)) as (-> & -> & -> & ->).
    unfold occurrences. rewrite !filter_cons.
    destruct d; cbn [bump_direction n_up n_down n_left n_right];
      repeat case_decide; try done; cbn [length]; lia.
Qed.

(** X14.  The statistics update counts one game and one death, of the
    cause given, and adds to the counter of each direction the number of
    its occurrences in the whole move log, not only in the 20 moves kept;
    the stored tier and the speed and frequency settings are left as they
    were. *)
Theorem update_player_stats_counters (am : AIGameMaster) (score : Z)
    (game_time : float) (c : DeathCause) (movements : list Direction) :
  match update_player_stats am score game_time c movements with
  | Returns am' =>
      let pd := player_data am in
      let pd' := player_data am' in
      games_played pd' = games_played pd + 1 /\
      dc_wall (death_causes pd')
      = dc_wall (death_causes pd) + (if decide (c = wall) then 1 else 0) /\
      dc_self (death_causes pd')
      = dc_self (death_causes pd) + (if decide (c = self) then 1 else 0) /\
      n_up (preferred_directions pd')
      = n_up (preferred_directions pd) + occurrences Up movements /\
      n_down (preferred_directions pd')
      = n_down (preferred_directions pd) + occurrences Down movements /\
      n_left (preferred_directions pd')
      = n_left (preferred_directions pd) + occurrences Left movements /\
      n_right (preferred_directions pd')
      = n_right (preferred_directions pd) + occurrences Right movements /\
      skill_level pd' = skill_level pd /\
      current_speed am' = current_speed am /\
      power_up_frequency am' = power_up_frequency am
  | Raises e => stats_failure (player_data am) score e
  | OutOfFuel => False
  end.
Proof.
  pose proof (update_player_stats_outcome am score game_time c movements)
    as Hout.
  destruct (update_player_stats am score game_time c movements)
    as [am' | e |] eqn:Hupd; [| done..].
  cbv zeta.
  apply update_player_stats_returns in Hupd
    as (_ & -> & -> & -> & -> & _ & _ & -> & ->).
  destruct (fold_left_bump_direction movements
              (preferred_directions (player_data am)))
    as (-> & -> & -> & ->).
  split_and!; try done;
    destruct c; cbn [bump_death dc_wall dc_self];
    case_decide; try done; lia.
Qed.

Lemma last_n_snoc {A} (n : nat) (l : list A) (x : A) :
  last_n (S n) (l ++ [x]) = last_n n l ++ [x].
Proof.
  unfold last_n. rewrite length_app. cbn [length].
  replace (length l + 1 - S n)%nat with (length l - n)%nat by lia.
  apply drop_app_le. lia.
Qed.

(** X15.  Once a game in which a key was pressed has been recorded, the
    next prediction is a direction, one of those in the pooled window. *)
Theorem recorded_moves_give_prediction (am : AIGameMaster) (score : Z)
    (game_time : float) (c : DeathCause) (movements : list Direction)
    (snake_head : Z * Z) (last_direction : Direction)
    (Hmoves : movements <> []) :
  match update_player_stats am score game_time c movements with
  | Returns am' =>
      exists d, predict_next_move am' snake_head last_direction = Some d /\
                d ∈ pooled (player_data am')
  | Raises e => stats_failure (player_data am) score e
  | OutOfFuel => False
  end.
Proof.
  pose proof (update_player_stats_outcome am score game_time c movements)
    as Hout.
  destruct (update_player_stats am score game_time c movements)
    as [am' | e |] eqn:Hupd; [| done..].
  apply update_player_stats_returns in Hupd as (Hpatterns & _).
  cbv zeta in Hpatterns.
  assert (exists x, x ∈ pooled (player_data am')) as [x Hx].
  { unfold pooled. rewrite Hpatterns, (last_n_snoc 9), concat_app.
    assert (exists x, x ∈ last_n 20 movements) as [x Hx].
    { unfold last_n.
      destruct (drop (length movements - 20) movements) as [| x l] eqn:Hdrop.
      - apply (f_equal length) in Hdrop. rewrite length_drop in Hdrop.
        destruct movements; [done | cbn in Hdrop; lia].
      - exists x. apply list_elem_of_here. }
    exists x. apply elem_of_app. right. cbn. by rewrite app_nil_r. }
  rewrite predict_next_move_tally.
  apply tally_keys in Hx.
  destruct (dict_keys (tally (pooled (player_data am')))) as [| k ks] eqn:Hk;
    [by apply elem_of_nil in Hx |].
  eexists. split; [done |].
  apply tally_keys. rewrite Hk.
  destruct (py_max_first
              (fun d => dict_get (tally (pooled (player_data am'))) d 0) k ks)
    as (l1 & l2 & -> & _).
  apply elem_of_app. right. apply list_elem_of_here.
Qed.

Lemma recorded_moves_give_prediction_witness :
  match update_player_stats (new_AIGameMaster idle_data) 20 (nearest 15) self
                            [Left; Down; Down] with
  | Returns am' =>
      exists d, predict_next_move am' (20, 12) Right = Some d /\
                d ∈ pooled (player_data am')
  | Raises e =>
      stats_failure (player_data (new_AIGameMaster idle_data)) 20 e
  | OutOfFuel => False
  end.
Proof.
  apply (recorded_moves_give_prediction (new_AIGameMaster idle_data) 20
           (nearest 15) self [Left; Down; Down] (20, 12) Right).
  discriminate.
Defined.

(** ** The spawn decision *)

Lemma adapt_difficulty_frequency_boost (am : AIGameMaster) (score : Z)
    (t : float) :
  let f := power_up_frequency (adapt_difficulty am score t) in
  leb f (mul f (literal 15 10)) = true.
Proof.
  cbv zeta. unfold adapt_difficulty. cbn [power_up_frequency].
  by destruct (analyze_skill_level (player_data am)); vm_compute.
Qed.

(** X16.  With the frequency that [adapt_difficulty] has set, the boost
    for a player whose score is under 0.7 of the average never takes a
    power-up away: on the same draw, whenever the decision is to spawn at
    some score it is also to spawn at a score under that mark.  Either
    way the decision takes exactly one draw. *)
Theorem struggling_boost_keeps_spawn (am : AIGameMaster) (score0 : Z)
    (t : float) (score score' len len' : Z) (g : Random)
    (Hlow : int_lt score'
              (mul (avg_score (player_data am)) (literal 7 10)) = true)
    (Hspawn : (should_spawn_power_up (adapt_difficulty am score0 t)
                                     score len g).1 = true) :
  (should_spawn_power_up (adapt_difficulty am score0 t) score' len' g).1
  = true /\
  (should_spawn_power_up (adapt_difficulty am score0 t) score' len' g).2
  = skip 1 g.
Proof.
  pose proof (adapt_difficulty_frequency_boost am score0 t) as Hboost.
  cbv zeta in Hboost. unfold should_spawn_power_up in *.
  change (avg_score (player_data (adapt_difficulty am score0 t)))
    with (avg_score (player_data am)) in *.
  rewrite Hlow. unfold random, next_draw in *. cbn [fst snd] in *.
  split; [| done].
  destruct (int_lt score _); cbn [fst] in Hspawn; [done |].
  by apply (ltb_leb_trans _ _ _ Hspawn).
Qed.

Lemma struggling_boost_keeps_spawn_witness :
  (should_spawn_power_up (adapt_difficulty veteran 0 zero) 100 3 (source [0])).1
  = true /\
  (should_spawn_power_up (adapt_difficulty veteran 0 zero) 100 3 (source [0])).2
  = skip 1 (source [0]).
Proof.
  apply (struggling_boost_keeps_spawn veteran 0 zero 400 100 5 3 (source [0]));
    reflexivity.
Defined.

(** ** Drawing *)

(** X17.  The square that [draw_game] fills for a cell of the grid lies
    within the black game area exactly for the columns 0 to 37, and within
    the window exactly for the columns 0 to 38: the squares of column 38
    stick out of the game area, and those of column 39 begin at x = 795
    and reach past the window's 800 pixels.  Every row fits. *)
Theorem cell_rect_in_view (c : Cell) (Hc : in_grid c) :
  (rect_within (cell_rect c) game_bg <-> c.1 <= 37) /\
  (rect_within (cell_rect c) window <-> c.1 <= 38) /\
  rect_left (cell_rect c) = 15 + 20 * c.1 /\ rect_width (cell_rect c) = 19.
Proof.
  destruct c as [x y], Hc as [Hx Hy]. cbn [fst snd] in *.
  unfold rect_within, cell_rect, game_bg, window.
  cbn [rect_left rect_top rect_width rect_height fst snd].
  change GRID_WIDTH with 40 in *. change GRID_HEIGHT with 25 in *.
  change GRID_SIZE with 20. change WINDOW_WIDTH with 800.
  change WINDOW_HEIGHT with 600.
  split_and!; lia.
Qed.

Lemma cell_rect_in_view_witness :
  (rect_within (cell_rect (39, 3)) game_bg <-> (39, 3).1 <= 37) /\
  (rect_within (cell_rect (39, 3)) window <-> (39, 3).1 <= 38) /\
  rect_left (cell_rect (39, 3)) = 15 + 20 * (39, 3).1 /\
  rect_width (cell_rect (39, 3)) = 19.
Proof. apply (cell_rect_in_view (39, 3)). by vm_compute. Defined.

(** ** When the game ends and the profile changes *)

(** X18.  A tick ends the game only through a collision, and game over is
    final for ticks: after a tick the game is over exactly when it was
    over before or the tick, not paused, found a death cause.  As long as
    the tick does not end the game, the statistics of the profile - game
    count, averages, history, death and direction counters - are left as
    they were. *)
Theorem game_ends_only_by_collision (fuel : nat) (t1 t2 : float) (s : Game)
    (g : Random) :
  match update_game fuel t1 t2 s g with
  | Returns (s', _) =>
      (game_over s' = true <->
       game_over s = true \/
       (paused s = false /\
        exists h c, new_head s = Some h /\ collision h (snake s) = Some c)) /\
      (game_over s' = game_over s ->
       let pd := player_data (ai_master s) in
       let pd' := player_data (ai_master s') in
       games_played pd' = games_played pd /\
       avg_score pd' = avg_score pd /\
       avg_game_time pd' = avg_game_time pd /\
       movement_patterns pd' = movement_patterns pd /\
       death_causes pd' = death_causes pd /\
       preferred_directions pd' = preferred_directions pd)
  | Raises _ | OutOfFuel => True
  end.
Proof.
  destruct (paused s) eqn:Hrun.
  { unfold update_game. rewrite Hrun. cbn [orb]. split; [| done].
    split; [by left | by intros [? | [? _]]]. }
  destruct (game_over s) eqn:Hlive.
  { unfold update_game. rewrite Hrun, Hlive. cbn [orb]. split; [| done].
    rewrite Hlive. split; [by left | done]. }
  destruct (new_head s) as [h |] eqn:Hhead; cycle 1.
  { unfold update_game, new_head in *. rewrite Hrun, Hlive. cbn [orb].
    by destruct (snake s). }
  destruct (collision h (snake s)) as [c |] eqn:Hcol.
  - rewrite (update_game_death fuel t1 t2 s g h c) by done.
    destruct (update_player_stats _ _ _ _ _) as [am' | e |];
      cbn [mbind outcome_bind]; [| done..].
    cbn [game_over]. split; [| done].
    split; [intros _; right | done]. split; [done |]. by exists h, c.
  - pose proof (live_tick fuel t1 t2 s g h Hrun Hlive Hhead Hcol) as Htick.
    destruct (update_game fuel t1 t2 s g) as [[s' g'] | e |]; [| done..].
    destruct Htick as (added & food' & _ & _ & _ & _ & ->).
    cbn [game_over ai_master]. split; [| done].
    split; [done |]. intros [? | (_ & h' & c' & [= <-] & Hc)]; [done |].
    congruence.
Qed.

(** ** Restarting *)

(** X19.  The space key after game over starts a new session with the same
    game master, profile included: a well-formed session with the snake
    back at (20, 12), no score, the game on and not paused.  This never
    raises, and runs out of fuel only when every cell drawn for the food
    within the fuel is the snake's own. *)
Theorem space_restarts_game (fuel : nat) (s : Game) (g : Random)
    (Hover : game_over s = true) :
  match handle_input fuel [KEYDOWN K_SPACE] s g with
  | Returns (running, s', _) =>
      running = true /\ well_formed s' /\ ai_master s' = ai_master s /\
      snake s' = [(20, 12)] /\ score s' = 0 /\ power_ups s' = [] /\
      movement_history s' = [] /\
      game_over s' = false /\ paused s' = false
  | Raises _ => False
  | OutOfFuel => forall k, (k < fuel)%nat -> candidate g k = (20, 12)
  end.
Proof.
  cbn [handle_input]. rewrite bool_decide_eq_false_2 by done.
  rewrite bool_decide_eq_true_2 by done. rewrite Hover.
  destruct (reset_game fuel (ai_master s) g) as [[s1 g1] | e |] eqn:Hreset;
    cbn [mbind outcome_bind].
  - apply reset_game_well_formed in Hreset. by intuition.
  - unfold reset_game in Hreset. cbv zeta in Hreset.
    pose proof (spawn_food_never_raises fuel
                  [(GRID_WIDTH / 2, GRID_HEIGHT / 2)] g) as Hnever.
    destruct (spawn_food fuel _ g) as [[f g1] | e' |]; [done | | done].
    by destruct (Hnever e').
  - unfold reset_game in Hreset. cbv zeta in Hreset.
    destruct (spawn_food fuel _ g) as [[f g1] | e' |] eqn:Hspawn;
      [done | done |].
    intros k Hk. apply (spawn_food_out_of_fuel _ _ _ Hspawn k) in Hk.
    by apply list_elem_of_singleton in Hk.
Qed.

Lemma space_restarts_game_witness :
  match handle_input 1 [KEYDOWN K_SPACE] wrecked (source [7; 7]) with
  | Returns (running, s', _) =>
      running = true /\ well_formed s' /\
      ai_master s' = ai_master wrecked /\
      snake s' = [(20, 12)] /\ score s' = 0 /\ power_ups s' = [] /\
      movement_history s' = [] /\
      game_over s' = false /\ paused s' = false
  | Raises _ => False
  | OutOfFuel => forall k, (k < 1)%nat -> candidate (source [7; 7]) k = (20, 12)
  end.
Proof.
  apply (space_restarts_game 1 wrecked (source [7; 7])). reflexivity.
Defined.

(** ** The placement loop in full *)

Lemma skip_skip (a b : nat) (g : Random) : skip a (skip b g) = skip (a + b) g.
Proof. unfold skip. cbn [tape cursor]. f_equal. lia. Qed.

(** X20.  [spawn_food] returns the first cell drawn that is off the snake,
    having taken two draws for it and for each cell rejected before it; it
    returns exactly when such a cell comes within the fuel. *)
Theorem spawn_food_first_free (fuel : nat) (snake : list Cell) (g g' : Random)
    (c : Cell) :
  spawn_food fuel snake g = Returns (c, g') <->
  exists k, (k < fuel)%nat /\ (candidate g k ∉ snake) /\
            (forall j, (j < k)%nat -> candidate g j ∈ snake) /\
            c = candidate g k /\ g' = skip (2 * S k) g.
Proof.
  revert g. induction fuel as [| fuel IH]; intros g.
  - split; [done | intros (k & ? & _); lia].
  - rewrite spawn_food_step. case_bool_decide as Hfirst.
    + split.
      * intros [= <- <-]. exists 0%nat. split_and!; try done; [lia |].
        intros j Hj. lia.
      * intros (k & _ & Hk & Hbefore & -> & ->).
        destruct k as [| k]; [done |].
        destruct Hfirst. apply Hbefore. lia.
    + rewrite IH. split.
      * intros (k & Hlt & Hk & Hbefore & -> & ->). exists (S k).
        rewrite !candidate_skip in *. split_and!; try done; [lia | |].
        -- intros [| j] Hj; [done |].
           rewrite <- candidate_skip. apply Hbefore. lia.
        -- rewrite skip_skip. f_equal. lia.
      * intros (k & Hlt & Hk & Hbefore & -> & ->).
        destruct k as [| k]; [done |]. exists k.
        rewrite !candidate_skip. split_and!; try done; [lia | |].
        -- intros j Hj. rewrite candidate_skip. apply Hbefore. lia.
        -- rewrite skip_skip. f_equal. lia.
Qed.
